(** * CommuteWise routing and geocoding engine

    A shallow embedding of [services/routeCalculator.ts] (the static-graph
    pathfinder) and [services/openRouteService.ts] (the throttled gateway
    and the variant generator), followed by the properties proved of them.

    Conventions of the embedding.
    - A JavaScript [number] is [number] below: NaN, the two infinities, or
      a finite value held as an exact rational in lowest terms.  Arithmetic
      on finite values is exact: binary64 rounding is not modelled.  Every
      edge weight of the transit graph is a multiple of 0.5, on which
      binary64 arithmetic is exact as well.
    - A JavaScript string is a [string] of 8-bit characters; case mapping
      covers the ASCII letters.
    - [Date.now()] is an integer number of milliseconds, a [Z].
    - A computation that can throw returns a [Completion]. *)

From Stdlib Require Import ZArith QArith Qround Qabs Qreduction Lqa.
From Stdlib Require Import Bool List String Ascii NArith Lia.
Import ListNotations.

Local Open Scope string_scope.

(* ================================================================== *)
(** ** JavaScript values *)
(* ================================================================== *)

Module JS.

(** *** Numbers *)

Inductive number : Type :=
| NaN
| Infinity
| NegInfinity
| Fin (q : Q).

Definition num (z : Z) : number := Fin (inject_Z z).

(** A decimal literal of the source, in lowest terms. *)
Definition lit (q : Q) : number := Fin (Qred q).

Arguments lit q%_Q.

Definition Qlt_bool (x y : Q) : bool := negb (Qle_bool y x).

Definition neg (a : number) : number :=
  match a with
  | NaN => NaN
  | Infinity => NegInfinity
  | NegInfinity => Infinity
  | Fin q => Fin (Qred (- q))
  end.

Definition add (a b : number) : number :=
  match a, b with
  | NaN, _ | _, NaN => NaN
  | Infinity, NegInfinity | NegInfinity, Infinity => NaN
  | Infinity, _ | _, Infinity => Infinity
  | NegInfinity, _ | _, NegInfinity => NegInfinity
  | Fin x, Fin y => Fin (Qred (x + y))
  end.

Definition sub (a b : number) : number := add a (neg b).

(** The sign of an infinite product; zero times infinity is NaN. *)
Definition signed_inf (positive_inf : bool) (q : Q) : number :=
  if Qeq_bool q 0 then NaN
  else if Bool.eqb positive_inf (Qlt_bool 0 q) then Infinity
  else NegInfinity.

Definition mul (a b : number) : number :=
  match a, b with
  | NaN, _ | _, NaN => NaN
  | Infinity, Infinity | NegInfinity, NegInfinity => Infinity
  | Infinity, NegInfinity | NegInfinity, Infinity => NegInfinity
  | Infinity, Fin q | Fin q, Infinity => signed_inf true q
  | NegInfinity, Fin q | Fin q, NegInfinity => signed_inf false q
  | Fin x, Fin y => Fin (Qred (x * y))
  end.

(** Division; the model has a single zero, which divides as +0. *)
Definition div (a b : number) : number :=
  match a, b with
  | NaN, _ | _, NaN => NaN
  | Fin _, Infinity | Fin _, NegInfinity => Fin 0
  | Fin x, Fin y =>
      if Qeq_bool y 0 then
        if Qeq_bool x 0 then NaN
        else if Qlt_bool 0 x then Infinity else NegInfinity
      else Fin (Qred (x / y))
  | Infinity, Fin y => if Qlt_bool y 0 then NegInfinity else Infinity
  | NegInfinity, Fin y => if Qlt_bool y 0 then Infinity else NegInfinity
  | _, _ => NaN
  end.

(** [a < b]; false as soon as one side is NaN. *)
Definition ltb (a b : number) : bool :=
  match a, b with
  | NaN, _ | _, NaN => false
  | _, NegInfinity => false
  | NegInfinity, _ => true
  | Infinity, _ => false
  | _, Infinity => true
  | Fin x, Fin y => Qlt_bool x y
  end.

(** [a === b] on numbers. *)
Definition eqb (a b : number) : bool :=
  match a, b with
  | Infinity, Infinity | NegInfinity, NegInfinity => true
  | Fin x, Fin y => Qeq_bool x y
  | _, _ => false
  end.

(** [a <= b]. *)
Definition leb (a b : number) : bool := ltb a b || eqb a b.


Definition Math_floor (a : number) : number :=
  match a with
  | Fin q => num (Qfloor q)
  | _ => a
  end.

Definition Math_ceil (a : number) : number :=
  match a with
  | Fin q => num (Qceiling q)
  | _ => a
  end.

Definition Math_max (a b : number) : number :=
  match a, b with
  | NaN, _ | _, NaN => NaN
  | _, _ => if ltb a b then b else a
  end.

(** [Math.pow(x, n)] for a natural exponent. *)
Fixpoint Math_pow (x : number) (n : nat) : number :=
  match n with
  | O => num 1
  | S O => x
  | S m => mul x (Math_pow x m)
  end.

(** [Math.sqrt] has no rational value in general.  The root is kept as
    its radicand; the only operation the program applies to a root is
    the comparison [<], and the square root is strictly increasing on
    the non-negative numbers, infinity included. *)
Record root : Type := Sqrt { radicand : number }.

Definition Math_sqrt (x : number) : root :=
  Sqrt (if ltb x (num 0) then NaN else x).

Definition root_ltb (a b : root) : bool := ltb (radicand a) (radicand b).

(** [Infinity], which is its own square root, among the roots. *)
Definition root_Infinity : root := Sqrt Infinity.

(** [!x] for a number. *)
Definition falsy_number (a : number) : bool :=
  match a with
  | NaN => true
  | Fin q => Qeq_bool q 0
  | _ => false
  end.

(** *** Completions *)

Inductive Exn : Type :=
| TypeError (what : string)
| SyntaxError (what : string)
| Error (message : string).

(** [Unfinished] is the model running out of its iteration bound; it is
    proved unreachable where a claim depends on it. *)
Inductive Completion (A : Type) : Type :=
| Normal (a : A)
| Thrown (e : Exn)
| Unfinished.

Arguments Normal {A} a.
Arguments Thrown {A} e.
Arguments Unfinished {A}.

Definition cbind {A B : Type} (c : Completion A) (k : A -> Completion B)
  : Completion B :=
  match c with
  | Normal a => k a
  | Thrown e => Thrown e
  | Unfinished => Unfinished
  end.

(** Reading a property of [undefined] throws. *)
Definition deref {A : Type} (what : string) (o : option A) : Completion A :=
  match o with
  | Some a => Normal a
  | None => Thrown (TypeError what)
  end.

(** *** Strings *)

Definition lower_ascii (c : ascii) : ascii :=
  let n := nat_of_ascii c in
  if (65 <=? n)%nat && (n <=? 90)%nat then ascii_of_nat (n + 32) else c.

Fixpoint toLowerCase (s : string) : string :=
  match s with
  | EmptyString => EmptyString
  | String c s' => String (lower_ascii c) (toLowerCase s')
  end.

(** [s.includes(t)]. *)
Fixpoint includes (s t : string) : bool :=
  String.prefix t s ||
  match s with
  | EmptyString => false
  | String _ s' => includes s' t
  end.

(** [!s] for a string. *)
Definition falsy_string (s : string) : bool :=
  match s with
  | EmptyString => true
  | _ => false
  end.

(** *** Decimal numerals *)

Definition digit (d : N) : ascii := ascii_of_N (48 + d).

Definition is_digit (c : ascii) : bool :=
  let n := N_of_ascii c in (48 <=? n)%N && (n <=? 57)%N.

Definition digit_value (c : ascii) : N := (N_of_ascii c - 48)%N.

(** The last [width] decimal digits of [n], zero-padded on the left. *)
Fixpoint fixed_digits (width : nat) (n : N) : string :=
  match width with
  | O => EmptyString
  | S w => fixed_digits w (n / 10)%N ++ String (digit (n mod 10)%N) EmptyString
  end.

Fixpoint strip_zeros (s : string) : string :=
  match s with
  | String "0"%char (String _ _ as rest) => strip_zeros rest
  | _ => s
  end.

(** The decimal numeral of [n], without leading zeros.  A number of [k]
    bits has at most [k] decimal digits. *)
Definition digits (n : N) : string :=
  strip_zeros (fixed_digits (S (N.to_nat (N.log2 n))) n).

(** The decimal numeral of an integer, as a template literal prints it. *)
Definition string_of_Z (z : Z) : string :=
  (if (z <? 0)%Z then "-" else EmptyString) ++ digits (Z.abs_N z).

(** The number a string of decimal digits denotes, read left to right. *)
Fixpoint value_of_digits (s : string) (acc : N) : N :=
  match s with
  | EmptyString => acc
  | String c rest => value_of_digits rest (10 * acc + digit_value c)%N
  end.

(** The longest prefix of decimal digits, and what follows it. *)
Fixpoint span_digits (s : string) : string * string :=
  match s with
  | EmptyString => (EmptyString, EmptyString)
  | String c rest =>
      if is_digit c then
        let '(ds, tl) := span_digits rest in (String c ds, tl)
      else (EmptyString, s)
  end.

(** *** [Number.prototype.toFixed]

    For a finite [x], the numeral of the integer [n] for which
    [n / 10^f - |x|] is closest to zero (the larger [n] on a tie), with a
    point before its last [f] digits.  JavaScript hands values of
    magnitude 10^21 and more to [Number::toString], which prints the
    shortest numeral that reads back as the same binary64 value; an exact
    rational has no such numeral, and the model keeps fixed notation. *)

Definition scaled_round (q : Q) (f : nat) : N :=
  Z.to_N (Qfloor (Qabs q * inject_Z (10 ^ Z.of_nat f) + (1 # 2))).

Definition toFixed (x : number) (f : nat) : string :=
  match x with
  | NaN => "NaN"
  | Infinity => "Infinity"
  | NegInfinity => "-Infinity"
  | Fin q =>
      let s := if Qlt_bool q 0 then "-" else EmptyString in
      let n := scaled_round q f in
      let p := (10 ^ N.of_nat f)%N in
      s ++ digits (n / p)%N
        ++ match f with
           | O => EmptyString
           | _ => "." ++ fixed_digits f (n mod p)%N
           end
  end.

(** *** [parseFloat]

    Leading white space is skipped and the longest prefix that reads as a
    decimal literal is taken: a sign, then [Infinity] or digits with an
    optional fraction and an optional exponent.  No such prefix is NaN. *)

Definition is_space (c : ascii) : bool :=
  let n := N_of_ascii c in ((9 <=? n)%N && (n <=? 13)%N) || (n =? 32)%N.

Fixpoint trim_start (s : string) : string :=
  match s with
  | String c rest => if is_space c then trim_start rest else s
  | EmptyString => s
  end.

Definition split_sign (s : string) : bool * string :=
  match s with
  | String "-"%char rest => (true, rest)
  | String "+"%char rest => (false, rest)
  | _ => (false, s)
  end.

(** The exponent part [e[+-]digits] at the head of [s], or 0. *)
Definition exponent_of (s : string) : Z :=
  match s with
  | String c rest =>
      if Ascii.eqb c "e" || Ascii.eqb c "E" then
        let '(negative, rest) := split_sign rest in
        let '(ds, _) := span_digits rest in
        match ds with
        | EmptyString => 0%Z
        | _ =>
            let e := Z.of_N (value_of_digits ds 0) in
            if negative then (- e)%Z else e
        end
      else 0%Z
  | EmptyString => 0%Z
  end.

(** The magnitude of the unsigned decimal literal at the head of [s]. *)
Definition decimal_literal (s : string) : option Q :=
  let '(ip, r1) := span_digits s in
  let '(fp, r2) :=
    match r1 with
    | String "."%char r => span_digits r
    | _ => (EmptyString, r1)
    end in
  if falsy_string ip && falsy_string fp then None
  else
    let whole := inject_Z (Z.of_N (value_of_digits ip 0)) in
    let frac :=
      inject_Z (Z.of_N (value_of_digits fp 0))
      / inject_Z (10 ^ Z.of_nat (String.length fp)) in
    Some ((whole + frac) * Qpower 10 (exponent_of r2)).

Definition parseFloat (s : string) : number :=
  let '(negative, s) := split_sign (trim_start s) in
  if String.prefix "Infinity" s then
    if negative then NegInfinity else Infinity
  else
    match decimal_literal s with
    | None => NaN
    | Some magnitude => Fin (Qred (if negative then - magnitude else magnitude))
    end.

(** *** Objects used as maps

    A [Record<string, V>] keeps its string keys in insertion order, which
    is the order [Object.keys] and [Object.values] enumerate. *)

Definition Rec (V : Type) : Type := list (string * V).

Fixpoint get {V : Type} (r : Rec V) (k : string) : option V :=
  match r with
  | [] => None
  | (k', v) :: r' => if String.eqb k' k then Some v else get r' k
  end.

(** [r[k] = v]: overwrite in place, or append a new key. *)
Fixpoint set {V : Type} (r : Rec V) (k : string) (v : V) : Rec V :=
  match r with
  | [] => [(k, v)]
  | (k', v') :: r' =>
      if String.eqb k' k then (k', v) :: r' else (k', v') :: set r' k v
  end.

Definition Object_keys {V : Type} (r : Rec V) : list string := map fst r.
Definition Object_values {V : Type} (r : Rec V) : list V := map snd r.

(** *** [Array.prototype.sort]

    The sort is stable.  A comparator result that is NaN counts as 0.
    [before x l] puts [x], which stood in front of the sorted [l], behind
    exactly the elements that compare strictly smaller. *)

Definition positive_number (a : number) : bool := ltb (num 0) a.

Fixpoint before {A : Type} (cmp : A -> A -> number) (x : A) (l : list A)
  : list A :=
  match l with
  | [] => [x]
  | y :: l' =>
      if positive_number (cmp x y) then y :: before cmp x l' else x :: l
  end.

Definition sort {A : Type} (cmp : A -> A -> number) (l : list A) : list A :=
  fold_right (before cmp) [] l.

End JS.

Import JS.

Declare Scope js_scope.
Delimit Scope js_scope with js.
Notation "x <- c ;; k" := (cbind c (fun x => k))
  (at level 61, c at next level, right associativity) : js_scope.

(* ================================================================== *)
(** ** [types.ts] *)
(* ================================================================== *)

Module Coordinates.
Record t : Type := mk { lat : number; lng : number }.
End Coordinates.

Module RouteStep.
(** [type] is a [TransportType], a string at run time. *)
Record t : Type := mk {
  instruction : string;
  type : string;
  distance : number;
  duration : number;
  way_points : number * number
}.
End RouteStep.

Inductive RouteType : Type := FASTEST | CHEAPEST | SHORTEST.

Module CalculatedRoute.
Record t : Type := mk {
  id : string;
  totalTimeMin : number;
  totalDistanceKm : number;
  totalCost : number;
  path : list Coordinates.t;
  steps : list RouteStep.t;
  type : RouteType;
  tags : list string
}.
End CalculatedRoute.

(* ================================================================== *)
(** ** [services/routeCalculator.ts] *)
(* ================================================================== *)

Inductive ConnectionType : Type := WALK | RIDE.

Module Connection.
Record t : Type := mk {
  targetId : string;
  distanceKm : number;
  timeMin : number;
  cost : number;
  type : ConnectionType;
  vehicleType : option string
}.
End Connection.

Module GraphNode.
Record t : Type := mk {
  id : string;
  name : string;
  address : string;
  coords : Coordinates.t;
  terminalType : option string;
  connections : list Connection.t
}.
End GraphNode.

Definition ride (target : string) (km min fare : number) (vehicle : string)
  : Connection.t :=
  Connection.mk target km min fare RIDE (Some vehicle).

Definition walk (target : string) (km min fare : number) : Connection.t :=
  Connection.mk target km min fare WALK None.

Definition GRAPH_NODES : Rec GraphNode.t :=
  [ ("ts_palengke",
     GraphNode.mk "ts_palengke" "Tandang Sora Palengke"
       "Tandang Sora Palengke, Tandang Sora Ave, Quezon City, 1116 Metro Manila"
       (Coordinates.mk (lit 14.6741) (lit 121.0359))
       (Some "MIXED")
       [ ride "visayas_ave" (lit 2.5) (lit 15) (lit 13) "JEEP";
         ride "comm_ave" (lit 3.0) (lit 20) (lit 15) "JEEP" ]);
    ("visayas_ave",
     GraphNode.mk "visayas_ave" "Visayas Avenue Junction"
       "Visayas Avenue, corner Tandang Sora Ave, Quezon City, 1128 Metro Manila"
       (Coordinates.mk (lit 14.6650) (lit 121.0450))
       (Some "JEEP")
       [ ride "ts_palengke" (lit 2.5) (lit 15) (lit 13) "JEEP";
         ride "technohub" (lit 4.0) (lit 25) (lit 20) "BUS" ]);
    ("comm_ave",
     GraphNode.mk "comm_ave" "Commonwealth Avenue"
       "Commonwealth Ave, Diliman, Quezon City, 1101 Metro Manila"
       (Coordinates.mk (lit 14.6680) (lit 121.0550))
       (Some "BUS")
       [ ride "ts_palengke" (lit 3.0) (lit 20) (lit 15) "JEEP";
         walk "technohub" (lit 1.5) (lit 5) (lit 0) ]);
    ("technohub",
     GraphNode.mk "technohub" "UP Ayala Technohub"
       "UP Ayala Technohub, Commonwealth Ave, Diliman, Quezon City, 1101 Metro Manila"
       (Coordinates.mk (lit 14.6575) (lit 121.0580))
       (Some "E_JEEP")
       [ ride "visayas_ave" (lit 4.0) (lit 25) (lit 20) "BUS" ]);
    ("culiat_tricycle",
     GraphNode.mk "culiat_tricycle" "Culiat Tricycle Toda"
       "Culiat High School, Tandang Sora Ave, Quezon City, 1128 Metro Manila"
       (Coordinates.mk (lit 14.6620) (lit 121.0500))
       (Some "TRICYCLE")
       [ ride "visayas_ave" (lit 1.0) (lit 10) (lit 20) "TRICYCLE" ]) ].

(** *** Nearest-neighbour search *)

Definition nearer (lat lng : number) (acc : root * option string)
  (node : GraphNode.t) : root * option string :=
  let '(minDesc, nearestId) := acc in
  let c := GraphNode.coords node in
  let dist :=
    Math_sqrt (add (Math_pow (sub (Coordinates.lat c) lat) 2)
                   (Math_pow (sub (Coordinates.lng c) lng) 2)) in
  if root_ltb dist minDesc then (dist, Some (GraphNode.id node))
  else (minDesc, nearestId).

Definition findNearestNode (lat lng : number) : option string :=
  snd (fold_left (nearer lat lng) (Object_values GRAPH_NODES)
         (root_Infinity, None)).

(** *** Dijkstra's algorithm *)

Inductive Metric : Type := TIME | DISTANCE | COST.

Definition weight_of (metric : Metric) (neighbor : Connection.t) : number :=
  match metric with
  | TIME => Connection.timeMin neighbor
  | DISTANCE => Connection.distanceKm neighbor
  | COST => Connection.cost neighbor
  end.

(** The mutable variables of the search. *)
Record Search : Type := mkSearch {
  distances : Rec number;
  previous : Rec (option string);
  queue : list string;
  processed : list string
}.

(** [distances[k]] as a number; a missing key reads [undefined], which
    arithmetic and comparison coerce to NaN. *)
Definition distance_of (d : Rec number) (k : string) : number :=
  match get d k with
  | Some x => x
  | None => NaN
  end.

Definition has (s : list string) (k : string) : bool :=
  existsb (String.eqb k) s.

Definition initial_search : Search :=
  fold_left
    (fun st nodeId =>
       mkSearch (set (distances st) nodeId Infinity)
                (set (previous st) nodeId None)
                (queue st ++ [nodeId])
                (processed st))
    (Object_keys GRAPH_NODES)
    (mkSearch [] [] [] []).

(** The body of [for (const neighbor of neighbors)]. *)
Definition relax (metric : Metric) (u : string) (st : Search)
  (neighbor : Connection.t) : Search :=
  let target := Connection.targetId neighbor in
  if has (processed st) target then st
  else
    let alt := add (distance_of (distances st) u) (weight_of metric neighbor) in
    if ltb alt (distance_of (distances st) target) then
      mkSearch (set (distances st) target alt)
               (set (previous st) target (Some u))
               (queue st)
               (processed st)
    else st.

Local Open Scope js_scope.

(** The [while (queue.length > 0)] loop; each turn shifts one element off
    the queue, so [fuel] bounds the turns by the queue's length. *)
Fixpoint main_loop (metric : Metric) (endNodeId : string) (fuel : nat)
  (st : Search) : Completion Search :=
  match sort (fun a b => sub (distance_of (distances st) a)
                             (distance_of (distances st) b)) (queue st) with
  | [] => Normal st
  | u :: rest =>
      let st := mkSearch (distances st) (previous st) rest (processed st) in
      if falsy_string u || eqb (distance_of (distances st) u) Infinity
      then Normal st
      else if String.eqb u endNodeId then Normal st
      else
        match fuel with
        | O => Unfinished
        | S fuel' =>
            node <- deref "GRAPH_NODES[u]" (get GRAPH_NODES u) ;;
            let st := fold_left (relax metric u) (GraphNode.connections node) st in
            main_loop metric endNodeId fuel'
              (mkSearch (distances st) (previous st) (queue st)
                        (u :: processed st))
        end
  end.

(** [while (current) { path.unshift(current); current = previous[current]; }]
    where [null], [undefined] and the empty string all end the walk. *)
Fixpoint reconstruct (prev : Rec (option string)) (fuel : nat)
  (current : option string) (path : list string) : Completion (list string) :=
  match current with
  | None => Normal path
  | Some c =>
      if falsy_string c then Normal path
      else
        match fuel with
        | O => Unfinished
        | S fuel' =>
            reconstruct prev fuel'
              (match get prev c with Some p => p | None => None end)
              (c :: path)
        end
  end.

(** The node path of steps 2 to 4: [None] is the early [return null]. *)
Definition search_path (startNodeId endNodeId : string) (metric : Metric)
  : Completion (option (list string)) :=
  let st0 := initial_search in
  let st1 := mkSearch (set (distances st0) startNodeId (num 0))
                      (previous st0) (queue st0) (processed st0) in
  st <- main_loop metric endNodeId (List.length (queue st1)) st1 ;;
  path <- reconstruct (previous st) (S (List.length (previous st)))
            (Some endNodeId) [] ;;
  match path with
  | first :: _ =>
      if String.eqb first startNodeId then Normal (Some path) else Normal None
  | [] => Normal None
  end.

(** *** Building the result *)

Definition instruction_of (conn : Connection.t) (toName : string) : string :=
  match Connection.type conn with
  | WALK => "Walk to " ++ toName
  | RIDE =>
      "Ride "
      ++ match Connection.vehicleType conn with
         | Some v => v
         | None => "undefined"
         end
      ++ " to " ++ toName
  end.

(** [conn.type === 'WALK' ? 'WALK' : (conn.vehicleType as TransportType) || 'CAR'] *)
Definition transport_of (conn : Connection.t) : string :=
  match Connection.type conn with
  | WALK => "WALK"
  | RIDE =>
      match Connection.vehicleType conn with
      | Some v => if falsy_string v then "CAR" else v
      | None => "CAR"
      end
  end.

(** The running totals and the legs pushed so far. *)
Record Totals : Type := mkTotals {
  totalTime : number;
  totalDist : number;
  totalCost : number;
  legs : list RouteStep.t
}.

(** [connections.find(c => c.targetId === toId)] *)
Definition find_connection (node : GraphNode.t) (toId : string)
  : option Connection.t :=
  find (fun c => String.eqb (Connection.targetId c) toId)
       (GraphNode.connections node).

(** The [for (let i = 0; i < path.length - 1; i++)] loop, by recursion on
    the remaining suffix [path[i..]]. *)
Fixpoint accumulate (path : list string) (acc : Totals) : Completion Totals :=
  match path with
  | fromId :: (toId :: _) as rest =>
      from <- deref "GRAPH_NODES[fromId]" (get GRAPH_NODES fromId) ;;
      match find_connection from toId with
      | Some conn =>
          to <- deref "GRAPH_NODES[toId]" (get GRAPH_NODES toId) ;;
          accumulate rest
            (mkTotals
               (add (totalTime acc) (Connection.timeMin conn))
               (add (totalDist acc) (Connection.distanceKm conn))
               (add (totalCost acc) (Connection.cost conn))
               (legs acc ++
                [RouteStep.mk
                   (instruction_of conn (GraphNode.name to))
                   (transport_of conn)
                   (mul (Connection.distanceKm conn) (num 1000))
                   (mul (Connection.timeMin conn) (num 60))
                   (num 0, num 0)]))
      | None => accumulate rest acc
      end
  | _ => Normal acc
  end.

(** [path.map(id => GRAPH_NODES[id].coords)] *)
Fixpoint path_coords (path : list string) : Completion (list Coordinates.t) :=
  match path with
  | [] => Normal []
  | id :: rest =>
      node <- deref "GRAPH_NODES[id]" (get GRAPH_NODES id) ;;
      cs <- path_coords rest ;;
      Normal (GraphNode.coords node :: cs)
  end.

Definition route_type (metric : Metric) : RouteType :=
  match metric with
  | TIME => FASTEST
  | DISTANCE => SHORTEST
  | COST => CHEAPEST
  end.

Definition route_tags (metric : Metric) : list string :=
  match metric with
  | TIME => ["Fastest"]
  | COST => ["Cheapest"]
  | DISTANCE => ["Shortest"]
  end.

(** [now] is the value [Date.now()] returns when the result is built. *)
Definition calculateRoute (start end_ : Coordinates.t) (metric : Metric)
  (now : Z) : Completion (option CalculatedRoute.t) :=
  match findNearestNode (Coordinates.lat start) (Coordinates.lng start),
        findNearestNode (Coordinates.lat end_) (Coordinates.lng end_) with
  | Some startNodeId, Some endNodeId =>
      if falsy_string startNodeId || falsy_string endNodeId
         || String.eqb startNodeId endNodeId
      then Normal None
      else
        found <- search_path startNodeId endNodeId metric ;;
        match found with
        | None => Normal None
        | Some path =>
            pathCoords <- path_coords path ;;
            sums <- accumulate path (mkTotals (num 0) (num 0) (num 0) []) ;;
            Normal (Some
              (CalculatedRoute.mk
                 ("route-" ++ string_of_Z now)
                 (totalTime sums)
                 (totalDist sums)
                 (totalCost sums)
                 pathCoords
                 (legs sums)
                 (route_type metric)
                 (route_tags metric)))
        end
  | _, _ => Normal None
  end.

(* ================================================================== *)
(** ** [services/openRouteService.ts] *)
(* ================================================================== *)

Module Place.
Record t : Type := mk {
  name : string;
  address : string;
  lat : number;
  lng : number
}.
End Place.

Module GeoName.
Record t : Type := mk { name : string; area : string }.
End GeoName.

Definition MOCK_FALLBACK_LOCATIONS : list Place.t :=
  [ Place.mk "Tandang Sora Palengke" "Tandang Sora Ave, Quezon City"
      (lit 14.6741) (lit 121.0359);
    Place.mk "Visayas Avenue Junction" "Visayas Ave, Quezon City"
      (lit 14.6650) (lit 121.0450);
    Place.mk "Commonwealth Market" "Commonwealth Ave, Quezon City"
      (lit 14.6680) (lit 121.0550);
    Place.mk "UP Ayala Technohub" "Commonwealth Ave, Diliman, QC"
      (lit 14.6575) (lit 121.0580);
    Place.mk "SM City North EDSA" "North Avenue, Quezon City"
      (lit 14.6560) (lit 121.0290);
    Place.mk "Trinoma Mall" "North Avenue, Quezon City"
      (lit 14.6540) (lit 121.0330);
    Place.mk "Quezon City Hall" "Kalayaan Ave, Quezon City"
      (lit 14.6460) (lit 121.0490);
    Place.mk "Iglesia Ni Cristo (Central)" "Commonwealth Ave, Quezon City"
      (lit 14.6610) (lit 121.0540);
    Place.mk "Culiat High School" "Tandang Sora Ave, Quezon City"
      (lit 14.6620) (lit 121.0500) ].

Definition MIN_CALL_INTERVAL : Z := 1000.

(** *** The provider's replies

    Each endpoint answers with a GeoJSON feature collection.  A member the
    code dereferences is optional here, so that reading through a missing
    one throws as it does in the source; the leaves carry the provider's
    documented types. *)

Module SearchProps.
Record t : Type := mk { name : string; label : string }.
End SearchProps.

Module PointGeometry.
(** [coordinates] is [[lng, lat]]. *)
Record t : Type := mk { coordinates : number * number }.
End PointGeometry.

Module SearchFeature.
Record t : Type := mk {
  properties : option SearchProps.t;
  geometry : option PointGeometry.t
}.
End SearchFeature.

Module ReverseProps.
Record t : Type := mk {
  neighbourhood : option string;
  locality : option string;
  borough : option string;
  county : option string;
  region : option string;
  name : option string;
  street : option string;
  label : option string
}.
End ReverseProps.

Module ReverseFeature.
Record t : Type := mk { properties : option ReverseProps.t }.
End ReverseFeature.

Module Summary.
Record t : Type := mk { distance : number; duration : number }.
End Summary.

Module ProviderStep.
Record t : Type := mk {
  instruction : string;
  distance : number;
  duration : number;
  way_points : number * number
}.
End ProviderStep.

Module Segment.
Record t : Type := mk { steps : option (list ProviderStep.t) }.
End Segment.

Module DirectionsProps.
Record t : Type := mk {
  segments : option (list Segment.t);
  summary : option Summary.t
}.
End DirectionsProps.

Module LineGeometry.
(** [coordinates] is a list of [[lng, lat]]. *)
Record t : Type := mk { coordinates : option (list (number * number)) }.
End LineGeometry.

Module DirectionsFeature.
Record t : Type := mk {
  properties : option DirectionsProps.t;
  geometry : option LineGeometry.t
}.
End DirectionsFeature.

(** The parsed body: [features] is absent when the member is missing or
    null. *)
Module Collection.
Record t (F : Type) : Type := mk { features : option (list F) }.
Arguments mk {F} features.
Arguments features {F} t.
End Collection.

(** What [response.json()] settles to. *)
Inductive Body (F : Type) : Type :=
| NotJson
| JsonNull
| Json (data : Collection.t F).

Arguments NotJson {F}.
Arguments JsonNull {F}.
Arguments Json {F} data.

Module Response.
Record t (F : Type) : Type := mk {
  ok : bool;
  status : Z;
  statusText : string;
  body : Body F
}.
Arguments mk {F} ok status statusText body.
Arguments ok {F} t.
Arguments status {F} t.
Arguments statusText {F} t.
Arguments body {F} t.
End Response.

(** What [fetch] settles to, and after how many milliseconds. *)
Inductive Settled (F : Type) : Type :=
| Rejected
| Resolved (response : Response.t F).

Arguments Rejected {F}.
Arguments Resolved {F} response.

Module Arrival.
Record t (F : Type) : Type := mk { took : Z; settled : Settled F }.
Arguments mk {F} took settled.
Arguments took {F} t.
Arguments settled {F} t.
End Arrival.

(** The provider: for each endpoint, the reply to a request sent at a
    given time. *)
Module Network.
Record t : Type := mk {
  search : string -> Z -> Arrival.t SearchFeature.t;
  reverse : number -> number -> Z -> Arrival.t ReverseFeature.t;
  directions :
    Coordinates.t -> Coordinates.t -> Z -> Arrival.t DirectionsFeature.t
}.
End Network.

(** *** The module's state and its effects *)

Inductive Endpoint : Type := GeocodeSearch | GeocodeReverse | Directions.

(** [clock] is what [Date.now()] reads, [lastCallTime] the module-level
    variable, and [sent] the requests issued so far, newest first, each
    with the time it left. *)
Record World : Type := mkWorld {
  clock : Z;
  lastCallTime : Z;
  sent : list (Z * Endpoint)
}.

(** How an awaited promise settles. *)
Inductive Promise (A : Type) : Type :=
| Fulfilled (a : A)
| RejectedWith (e : Exn).

Arguments Fulfilled {A} a.
Arguments RejectedWith {A} e.

(** An [async] function: it settles, and leaves the module's state
    changed, also when it rejects. *)
Definition Async (A : Type) : Type := World -> Promise A * World.

Definition ret {A : Type} (a : A) : Async A := fun w => (Fulfilled a, w).

Definition throw {A : Type} (e : Exn) : Async A :=
  fun w => (RejectedWith e, w).

Definition bind {A B : Type} (c : Async A) (k : A -> Async B) : Async B :=
  fun w =>
    match c w with
    | (Fulfilled a, w') => k a w'
    | (RejectedWith e, w') => (RejectedWith e, w')
    end.

(** [try { body } catch (error) { handler }] *)
Definition try_catch {A : Type} (body : Async A) (handler : Exn -> Async A)
  : Async A :=
  fun w =>
    match body w with
    | (RejectedWith e, w') => handler e w'
    | done => done
    end.

Declare Scope async_scope.
Delimit Scope async_scope with async.
Notation "x <- c ;; k" := (bind c (fun x => k))
  (at level 61, c at next level, right associativity) : async_scope.
Notation "c ;; k" := (bind c (fun _ => k))
  (at level 61, right associativity) : async_scope.

Definition Date_now : Async Z := fun w => (Fulfilled (clock w), w).

Definition read_lastCallTime : Async Z :=
  fun w => (Fulfilled (lastCallTime w), w).

Definition write_lastCallTime (t : Z) : Async unit :=
  fun w => (Fulfilled tt, mkWorld (clock w) t (sent w)).

(** [await wait(ms)]: the timer fires once [ms] milliseconds have passed. *)
Definition wait (ms : Z) : Async unit :=
  fun w =>
    (Fulfilled tt, mkWorld (clock w + Z.max 0 ms) (lastCallTime w) (sent w)).

(** [await fetch(url)]: the request leaves now and settles later. *)
Definition fetch {F : Type} (endpoint : Endpoint)
  (reply : Z -> Arrival.t F) : Async (Response.t F) :=
  fun w =>
    let a := reply (clock w) in
    let w' := mkWorld (clock w + Arrival.took a) (lastCallTime w)
                      ((clock w, endpoint) :: sent w) in
    match Arrival.settled a with
    | Rejected => (RejectedWith (TypeError "Failed to fetch"), w')
    | Resolved r => (Fulfilled r, w')
    end.

(** [await response.json()], then reading [data.features]. *)
Definition features_of {F : Type} (r : Response.t F)
  : Async (option (list F)) :=
  match Response.body r with
  | NotJson => throw (SyntaxError "Unexpected token")
  | JsonNull => throw (TypeError "data.features")
  | Json data => ret (Collection.features data)
  end.

Definition deref_async {A : Type} (what : string) (o : option A) : Async A :=
  match o with
  | Some a => ret a
  | None => throw (TypeError what)
  end.

(** [xs.map(f)] for an [f] that can throw. *)
Fixpoint map_async {A B : Type} (f : A -> Async B) (xs : list A)
  : Async (list B) :=
  match xs with
  | [] => ret []
  | x :: rest =>
      bind (f x) (fun y => bind (map_async f rest) (fun ys => ret (y :: ys)))
  end.

Local Open Scope async_scope.
Local Open Scope Z_scope.

(** *** Geocoding (search) *)

Definition matches_query (lowerQuery : string) (l : Place.t) : bool :=
  includes (toLowerCase (Place.name l)) lowerQuery
  || includes (toLowerCase (Place.address l)) lowerQuery.

Definition place_of_feature (feature : SearchFeature.t) : Async Place.t :=
  props <- deref_async "feature.properties" (SearchFeature.properties feature) ;;
  geom <- deref_async "feature.geometry" (SearchFeature.geometry feature) ;;
  ret (Place.mk (SearchProps.name props) (SearchProps.label props)
         (snd (PointGeometry.coordinates geom))
         (fst (PointGeometry.coordinates geom))).

Definition searchPlaces (net : Network.t) (query : string)
  : Async (list Place.t) :=
  if falsy_string query || (String.length query <? 3)%nat then ret []
  else
    now <- Date_now ;;
    last <- read_lastCallTime ;;
    (if now - last <? MIN_CALL_INTERVAL then wait 200 else ret tt) ;;
    now <- Date_now ;;
    write_lastCallTime now ;;
    try_catch
      (response <- fetch GeocodeSearch (Network.search net query) ;;
       if negb (Response.ok response) then throw (Error "API_ERROR")
       else
         features <- features_of response ;;
         match features with
         | None => ret []
         | Some fs => map_async place_of_feature fs
         end)
      (fun _ =>
         let lowerQuery := toLowerCase query in
         ret (filter (matches_query lowerQuery) MOCK_FALLBACK_LOCATIONS)).

(** *** Reverse geocoding *)

(** [a || b] where [a] is an optional string and [b] the rest of the
    chain: the first operand that is neither missing nor empty. *)
Definition or_else (a : option string) (b : string) : string :=
  match a with
  | Some s => if falsy_string s then b else s
  | None => b
  end.

Definition reverseGeocode (net : Network.t) (lat lng : number)
  : Async (option GeoName.t) :=
  now <- Date_now ;;
  last <- read_lastCallTime ;;
  let timeSinceLast := now - last in
  (if timeSinceLast <? 500 then wait 500 else ret tt) ;;
  now <- Date_now ;;
  write_lastCallTime now ;;
  try_catch
    (response <- fetch GeocodeReverse (Network.reverse net lat lng) ;;
     if negb (Response.ok response) then throw (Error "API_ERROR")
     else
       features <- features_of response ;;
       match features with
       | None | Some [] =>
           ret (Some (GeoName.mk "Unknown Location" "Address not found"))
       | Some (first :: _) =>
           props <- deref_async "features[0].properties"
                      (ReverseFeature.properties first) ;;
           let name :=
             or_else (ReverseProps.neighbourhood props)
               (or_else (ReverseProps.locality props)
                  (or_else (ReverseProps.borough props)
                     (or_else (ReverseProps.county props)
                        (or_else (ReverseProps.region props)
                           "Unknown Location")))) in
           let area :=
             or_else (ReverseProps.name props)
               (or_else (ReverseProps.street props)
                  (or_else (ReverseProps.label props) "Unknown Area")) in
           ret (Some (GeoName.mk name area))
       end)
    (fun _ =>
       ret (Some (GeoName.mk "Location Coordinates"
                    (toFixed lat 4 ++ ", " ++ toFixed lng 4)))).

(** *** Directions *)

Definition step_of (step : ProviderStep.t) : RouteStep.t :=
  RouteStep.mk (ProviderStep.instruction step) "CAR"
    (ProviderStep.distance step) (ProviderStep.duration step)
    (ProviderStep.way_points step).

(** [segment.steps.forEach(step => steps.push(...))] *)
Definition steps_of_segment (segment : Segment.t) : Async (list RouteStep.t) :=
  steps <- deref_async "segment.steps" (Segment.steps segment) ;;
  ret (map step_of steps).

Definition getDirections (net : Network.t) (start end_ : Coordinates.t)
  : Async (option CalculatedRoute.t) :=
  now <- Date_now ;;
  last <- read_lastCallTime ;;
  let timeSinceLast := now - last in
  (if timeSinceLast <? MIN_CALL_INTERVAL
   then wait (MIN_CALL_INTERVAL - timeSinceLast) else ret tt) ;;
  now <- Date_now ;;
  write_lastCallTime now ;;
  try_catch
    (response <- fetch Directions (Network.directions net start end_) ;;
     if negb (Response.ok response)
     then throw (Error ("ORS API Error: " ++ Response.statusText response))
     else
       features <- features_of response ;;
       match features with
       | None | Some [] => ret None
       | Some (feature :: _) =>
           let props := DirectionsFeature.properties feature in
           geometry <- deref_async "feature.geometry"
                         (DirectionsFeature.geometry feature) ;;
           coords <- deref_async "coords.map"
                       (LineGeometry.coordinates geometry) ;;
           let path := map (fun c => Coordinates.mk (snd c) (fst c)) coords in
           props <- deref_async "props.segments" props ;;
           steps <- match DirectionsProps.segments props with
                    | Some segments =>
                        per <- map_async steps_of_segment segments ;;
                        ret (List.concat per)
                    | None => ret []
                    end ;;
           summary <- deref_async "props.summary"
                        (DirectionsProps.summary props) ;;
           let distKm := Summary.distance summary in
           let durationMin :=
             Math_ceil (div (Summary.duration summary) (num 60)) in
           let baseFare := num 13 in
           let fare :=
             add baseFare (Math_max (num 0) (mul (sub distKm (num 4)) (num 2))) in
           now <- Date_now ;;
           ret (Some
             (CalculatedRoute.mk
                ("route-" ++ string_of_Z now)
                durationMin
                (parseFloat (toFixed distKm 2))
                (Math_ceil fare)
                path
                steps
                FASTEST
                ["Fare"; "Distance"; "Time"]))
       end)
    (fun _ => ret None).

(** *** Route variants *)

Definition generateRouteVariants (baseRoute : CalculatedRoute.t)
  : list CalculatedRoute.t :=
  let fastest :=
    CalculatedRoute.mk
      (CalculatedRoute.id baseRoute ++ "_fast")
      (CalculatedRoute.totalTimeMin baseRoute)
      (CalculatedRoute.totalDistanceKm baseRoute)
      (CalculatedRoute.totalCost baseRoute)
      (CalculatedRoute.path baseRoute)
      (CalculatedRoute.steps baseRoute)
      FASTEST
      ["Fastest"; "Comfort"] in
  let cheapest :=
    CalculatedRoute.mk
      (CalculatedRoute.id baseRoute ++ "_cheap")
      (Math_ceil (mul (CalculatedRoute.totalTimeMin baseRoute) (lit 1.3)))
      (CalculatedRoute.totalDistanceKm baseRoute)
      (Math_max (num 13)
         (Math_floor (mul (CalculatedRoute.totalCost baseRoute) (lit 0.7))))
      (CalculatedRoute.path baseRoute)
      (CalculatedRoute.steps baseRoute)
      CHEAPEST
      ["Budget"; "Saver"] in
  let shortest :=
    CalculatedRoute.mk
      (CalculatedRoute.id baseRoute ++ "_short")
      (Math_ceil (mul (CalculatedRoute.totalTimeMin baseRoute) (lit 1.1)))
      (parseFloat
         (toFixed (mul (CalculatedRoute.totalDistanceKm baseRoute) (lit 0.95)) 2))
      (CalculatedRoute.totalCost baseRoute)
      (CalculatedRoute.path baseRoute)
      (CalculatedRoute.steps baseRoute)
      SHORTEST
      ["Eco"; "Direct"] in
  [fastest; cheapest; shortest].

Local Close Scope Z_scope.

(* ================================================================== *)
(** ** Definitions the statements use *)
(* ================================================================== *)

(** *** Numerals *)

Fixpoint all_digits (s : string) : bool :=
  match s with
  | EmptyString => true
  | String c rest => is_digit c && all_digits rest
  end.

(** [rest] does not go on with a digit. *)
Definition stops (rest : string) : bool :=
  match rest with
  | EmptyString => true
  | String c _ => negb (is_digit c)
  end.

(** The numeral [toFixed] prints after the sign. *)
Definition fixed_numeral (n : N) (f : nat) : string :=
  digits (n / 10 ^ N.of_nat f)
  ++ match f with
     | O => EmptyString
     | _ => "." ++ fixed_digits f (n mod 10 ^ N.of_nat f)
     end.

(** [x] rounded to [f] decimals: the multiple of [10^-f] nearest to [x],
    the one further from zero on a tie. *)
Definition round_to (x : number) (f : nat) : number :=
  match x with
  | Fin q =>
      let m := inject_Z (Z.of_N (scaled_round q f))
               / inject_Z (10 ^ Z.of_nat f) in
      Fin (Qred (if Qlt_bool q 0 then - m else m))
  | _ => x
  end.

(** *** Reference shortest-path distances

    Bellman-Ford over the same graph: every edge is relaxed, one round
    after the other, one round fewer than there are nodes.  It shares
    nothing with [main_loop] but the graph and the arithmetic. *)

Definition node_ids : list string := Object_keys GRAPH_NODES.

Definition all_edges : list (string * Connection.t) :=
  flat_map
    (fun entry =>
       map (fun c => (fst entry, c)) (GraphNode.connections (snd entry)))
    GRAPH_NODES.

Definition relax_edge (metric : Metric) (d : Rec number)
  (edge : string * Connection.t) : Rec number :=
  let '(u, c) := edge in
  let alt := add (distance_of d u) (weight_of metric c) in
  if ltb alt (distance_of d (Connection.targetId c))
  then set d (Connection.targetId c) alt
  else d.

Definition bellman_ford_round (metric : Metric) (d : Rec number) : Rec number :=
  fold_left (relax_edge metric) all_edges d.

Definition bellman_ford (metric : Metric) (source : string) : Rec number :=
  Nat.iter (List.length node_ids - 1) (bellman_ford_round metric)
    (set (map (fun k => (k, Infinity)) node_ids) source (num 0)).

Definition reference_distance (metric : Metric) (source target : string)
  : number :=
  distance_of (bellman_ford metric source) target.

(** A walk of the graph from [u] to [v], as the edges it takes. *)
Inductive Walk : string -> string -> list (string * Connection.t) -> Prop :=
| Walk_stay (u : string) : Walk u u []
| Walk_step (u v : string) (c : Connection.t)
    (rest : list (string * Connection.t)) :
    In (u, c) all_edges ->
    Walk (Connection.targetId c) v rest ->
    Walk u v ((u, c) :: rest).

Definition walk_weight (metric : Metric) (edges : list (string * Connection.t))
  : number :=
  fold_right (fun e acc => add (weight_of metric (snd e)) acc) (num 0) edges.

(** The sum of the metric-selected weights along a path of node ids, each
    leg taken on the first edge that joins its two nodes. *)
Fixpoint path_weight (metric : Metric) (path : list string) (acc : number)
  : option number :=
  match path with
  | u :: (v :: _) as rest =>
      match get GRAPH_NODES u with
      | Some node =>
          match find_connection node v with
          | Some c => path_weight metric rest (add acc (weight_of metric c))
          | None => None
          end
      | None => None
      end
  | _ => Some acc
  end.

(** The total of an itinerary that the metric optimises. *)
Definition metric_total (metric : Metric) (r : CalculatedRoute.t) : number :=
  match metric with
  | TIME => CalculatedRoute.totalTimeMin r
  | DISTANCE => CalculatedRoute.totalDistanceKm r
  | COST => CalculatedRoute.totalCost r
  end.

(** A number that is finite or plus infinity: what a distance can be. *)
Definition distance_like (x : number) : bool :=
  match x with
  | Fin _ | Infinity => true
  | _ => false
  end.

(** No edge can shorten the table [d] any further. *)
Definition settled_table (metric : Metric) (d : Rec number) : bool :=
  forallb
    (fun e : string * Connection.t =>
       let '(u, c) := e in
       distance_like (distance_of d u)
       && distance_like (distance_of d (Connection.targetId c))
       && leb (num 0) (weight_of metric c)
       && leb (distance_of d (Connection.targetId c))
              (add (distance_of d u) (weight_of metric c)))
    all_edges.

(** *** The graph-mode scenario *)

Definition resolve (p : Coordinates.t) : option string :=
  findNearestNode (Coordinates.lat p) (Coordinates.lng p).

Definition palengke_point : Coordinates.t :=
  Coordinates.mk (lit 14.6741) (lit 121.0359).

Definition comm_ave_point : Coordinates.t :=
  Coordinates.mk (lit 14.6680) (lit 121.0550).

Definition technohub_point : Coordinates.t :=
  Coordinates.mk (lit 14.6575) (lit 121.0580).

(** The scenario as the specification words it: by TIME, from the market
    to the Technohub over Visayas Avenue, 40 minutes for 33 pesos. *)
Definition scenario_via_visayas (start end_ : Coordinates.t) (now : Z) : Prop :=
  exists r,
    calculateRoute start end_ TIME now = Normal (Some r)
    /\ path_coords ["ts_palengke"; "visayas_ave"; "technohub"]
       = Normal (CalculatedRoute.path r)
    /\ CalculatedRoute.totalTimeMin r = num 40
    /\ CalculatedRoute.totalCost r = num 33.

(** The itinerary from the market to the Technohub over Commonwealth
    Avenue: a jeepney ride and a walk. *)
Definition route_via_comm_ave (id : string) (type : RouteType)
  (tags : list string) : CalculatedRoute.t :=
  CalculatedRoute.mk id (num 25) (lit 4.5) (num 15)
    [palengke_point; comm_ave_point; technohub_point]
    [ RouteStep.mk "Ride JEEP to Commonwealth Avenue" "JEEP"
        (num 3000) (num 1200) (num 0, num 0);
      RouteStep.mk "Walk to UP Ayala Technohub" "WALK"
        (num 1500) (num 300) (num 0, num 0) ]
    type tags.

(** The walk from Commonwealth Avenue to the Technohub, as the search by
    COST returns it at clock reading 0: it costs nothing. *)
Definition walking_route : CalculatedRoute.t :=
  CalculatedRoute.mk "route-0" (num 5) (lit 1.5) (num 0)
    [comm_ave_point; technohub_point]
    [ RouteStep.mk "Walk to UP Ayala Technohub" "WALK"
        (num 1500) (num 300) (num 0, num 0) ]
    CHEAPEST ["Cheapest"].

(** *** Variants *)

(** A non-negative multiple of 0.01. *)
Definition hundredths (d : number) : Prop :=
  exists (k : Z) (q : Q), (0 <= k)%Z /\ d = Fin q /\ q == inject_Z k / 100.


(** An itinerary as [getDirections] builds it for 6 km in 15 minutes. *)
Definition six_km_route : CalculatedRoute.t :=
  CalculatedRoute.mk "route-1700000000150" (num 15) (num 6) (num 17)
    [palengke_point; technohub_point] [] FASTEST ["Fare"; "Distance"; "Time"].

(** *** The gateway *)

(** A transport or parse failure of the provider: the request is rejected,
    the reply is an HTTP error, or its body is not JSON. *)
Definition failed {F : Type} (a : Arrival.t F) : bool :=
  match Arrival.settled a with
  | Rejected => true
  | Resolved r =>
      negb (Response.ok r)
      || match Response.body r with
         | NotJson => true
         | _ => false
         end
  end.

(** The state after two calls of [call], the second begun as the first
    returns. *)
Definition back_to_back {A : Type} (call : Async A) (w : World) : World :=
  snd (call (snd (call w))).

(** When the request of a call begun in [w] leaves: at once, or after the
    pause the throttle takes when the last request left less than
    [threshold] milliseconds ago. *)
Definition departure (threshold : Z) (pause : Z -> Z) (w : World) : Z :=
  let since := (clock w - lastCallTime w)%Z in
  if (since <? threshold)%Z then (clock w + Z.max 0 (pause since))%Z
  else clock w.

(** The state a call leaves behind: its request left at [t] and settled
    [took] milliseconds later. *)
Definition after_call (endpoint : Endpoint) (t took : Z) (w : World) : World :=
  mkWorld (t + took) t ((t, endpoint) :: sent w).

Definition every_segment_has_steps (segments : option (list Segment.t))
  : bool :=
  match segments with
  | None => true
  | Some l =>
      forallb
        (fun s => match Segment.steps s with Some _ => true | None => false end)
        l
  end.

(** A provider out of reach: every request is rejected after 150 ms. *)
Definition quick_network : Network.t :=
  Network.mk
    (fun _ _ => Arrival.mk 150 Rejected)
    (fun _ _ _ => Arrival.mk 150 Rejected)
    (fun _ _ _ => Arrival.mk 150 Rejected).

(** A provider whose directions are one feature with the given summary. *)
Definition directions_network (distance duration : number) : Network.t :=
  Network.mk
    (fun _ _ => Arrival.mk 150 Rejected)
    (fun _ _ _ => Arrival.mk 150 Rejected)
    (fun _ _ _ =>
       Arrival.mk 150
         (Resolved
            (Response.mk true 200 "OK"
               (Json
                  (Collection.mk
                     (Some
                        [DirectionsFeature.mk
                           (Some (DirectionsProps.mk None
                                    (Some (Summary.mk distance duration))))
                           (Some (LineGeometry.mk
                                    (Some [(lit 121.0359, lit 14.6741);
                                           (lit 121.0580, lit 14.6575)])))])))))).

Definition morning : World := mkWorld 1700000000000 0 [].

(** *** Itinerary ids *)

(** Reading back the numeral of an integer. *)
Definition Z_of_string (s : string) : Z :=
  match s with
  | String "-"%char rest => (- Z.of_N (value_of_digits rest 0))%Z
  | _ => Z.of_N (value_of_digits s 0)
  end.

(** [r] is the itinerary of a computation that read [t] off the clock when
    it made the id. *)
Definition computed_at (r : CalculatedRoute.t) (t : Z) : Prop :=
  (exists start end_ metric,
     calculateRoute start end_ metric t = Normal (Some r))
  \/ (exists net start end_ w w',
        getDirections net start end_ w = (Fulfilled (Some r), w')
        /\ clock w' = t).

(** Id uniqueness as the specification words it: two computations that
    return different itineraries never give them the same id. *)
Definition ids_never_repeat : Prop :=
  forall r1 t1 r2 t2,
    computed_at r1 t1 -> computed_at r2 t2 -> r1 <> r2 ->
    CalculatedRoute.id r1 <> CalculatedRoute.id r2.

(* ================================================================== *)
(** ** [services/routeCalculator.ts]: local search and terminals *)
(* ================================================================== *)

Definition MOCK_STREETS : list string :=
  [ "1 Sampaguita Ave, Quezon City, 1107 Metro Manila";
    "25 Banlat Road, Tandang Sora, Quezon City, 1116 Metro Manila";
    "St. James College, Mindanao Ave, Quezon City, 1100 Metro Manila";
    "Cherry Foodarama, Congressional Ave, Quezon City, 1100 Metro Manila";
    "Project 6, Quezon City, 1100 Metro Manila";
    "SM City North EDSA, North Avenue, corner Epifanio de los Santos Ave, Quezon City, 1100 Metro Manila" ].

Inductive ResultType : Type := TERMINAL | LOCATION.

Module SearchResult.
Record t : Type := mk {
  name : string;
  address : string;
  type : ResultType
}.
End SearchResult.

(** [s.split(',')[0]]: what stands before the first comma. *)
Fixpoint before_comma (s : string) : string :=
  match s with
  | EmptyString => EmptyString
  | String c rest =>
      if Ascii.eqb c ","%char then EmptyString
      else String c (before_comma rest)
  end.

Definition terminal_matches (lowerQuery : string) (node : GraphNode.t) : bool :=
  includes (toLowerCase (GraphNode.name node)) lowerQuery
  || includes (toLowerCase (GraphNode.address node)) lowerQuery.

Definition street_matches (lowerQuery : string) (street : string) : bool :=
  includes (toLowerCase street) lowerQuery.

(** The two [forEach] loops push, in order, one result for each terminal
    and then for each street that passes the test. *)
Definition searchLocations (query : string) : list SearchResult.t :=
  if falsy_string query || (String.length query <? 2)%nat then []
  else
    let lowerQuery := toLowerCase query in
    map (fun node =>
           SearchResult.mk (GraphNode.name node) (GraphNode.address node)
             TERMINAL)
        (filter (terminal_matches lowerQuery) (Object_values GRAPH_NODES))
    ++ map (fun street =>
              SearchResult.mk (before_comma street) street LOCATION)
           (filter (street_matches lowerQuery) MOCK_STREETS).

Module Terminal.
(** [type] is a [TransportType], a string at run time. *)
Record t : Type := mk {
  id : string;
  name : string;
  address : string;
  type : string;
  location : Coordinates.t;
  rating : number;
  routeCount : number
}.
End Terminal.

Definition getTerminals : list Terminal.t :=
  map (fun node =>
         Terminal.mk
           (GraphNode.id node)
           (GraphNode.name node)
           (GraphNode.address node)
           (or_else (GraphNode.terminalType node) "MIXED")
           (GraphNode.coords node)
           (lit 4.5)
           (num (Z.of_nat (List.length (GraphNode.connections node)))))
      (Object_values GRAPH_NODES).

(* ================================================================== *)
(** ** [pages/Home.tsx]: the route search of the page *)
(* ================================================================== *)

(** The state the route handlers read and set: the component's own state
    variables, [currentRoute] and [isLoading] of the store, and the
    messages [alert] has shown, newest first. *)
Module Page.
Record t : Type := mk {
  isSearchPageOpen : bool;
  searchFrom : string;
  searchFromCoords : option Coordinates.t;
  searchToCoords : option Coordinates.t;
  userLocation : option Coordinates.t;
  possibleRoutes : list CalculatedRoute.t;
  isSelectingRoute : bool;
  showRoutePanel : bool;
  currentRoute : option CalculatedRoute.t;
  isLoading : bool;
  alerts : list string
}.
End Page.

(** The setters the handlers call. *)
Definition setIsSearchPageOpen (v : bool) (p : Page.t) : Page.t :=
  Page.mk v (Page.searchFrom p) (Page.searchFromCoords p)
    (Page.searchToCoords p) (Page.userLocation p) (Page.possibleRoutes p)
    (Page.isSelectingRoute p) (Page.showRoutePanel p) (Page.currentRoute p)
    (Page.isLoading p) (Page.alerts p).

Definition setPossibleRoutes (v : list CalculatedRoute.t) (p : Page.t)
  : Page.t :=
  Page.mk (Page.isSearchPageOpen p) (Page.searchFrom p)
    (Page.searchFromCoords p) (Page.searchToCoords p) (Page.userLocation p)
    v (Page.isSelectingRoute p) (Page.showRoutePanel p) (Page.currentRoute p)
    (Page.isLoading p) (Page.alerts p).

Definition setIsSelectingRoute (v : bool) (p : Page.t) : Page.t :=
  Page.mk (Page.isSearchPageOpen p) (Page.searchFrom p)
    (Page.searchFromCoords p) (Page.searchToCoords p) (Page.userLocation p)
    (Page.possibleRoutes p) v (Page.showRoutePanel p) (Page.currentRoute p)
    (Page.isLoading p) (Page.alerts p).

Definition setShowRoutePanel (v : bool) (p : Page.t) : Page.t :=
  Page.mk (Page.isSearchPageOpen p) (Page.searchFrom p)
    (Page.searchFromCoords p) (Page.searchToCoords p) (Page.userLocation p)
    (Page.possibleRoutes p) (Page.isSelectingRoute p) v (Page.currentRoute p)
    (Page.isLoading p) (Page.alerts p).

Definition setRoute (v : option CalculatedRoute.t) (p : Page.t) : Page.t :=
  Page.mk (Page.isSearchPageOpen p) (Page.searchFrom p)
    (Page.searchFromCoords p) (Page.searchToCoords p) (Page.userLocation p)
    (Page.possibleRoutes p) (Page.isSelectingRoute p) (Page.showRoutePanel p)
    v (Page.isLoading p) (Page.alerts p).

Definition setLoading (v : bool) (p : Page.t) : Page.t :=
  Page.mk (Page.isSearchPageOpen p) (Page.searchFrom p)
    (Page.searchFromCoords p) (Page.searchToCoords p) (Page.userLocation p)
    (Page.possibleRoutes p) (Page.isSelectingRoute p) (Page.showRoutePanel p)
    (Page.currentRoute p) v (Page.alerts p).

Definition alert (message : string) (p : Page.t) : Page.t :=
  Page.mk (Page.isSearchPageOpen p) (Page.searchFrom p)
    (Page.searchFromCoords p) (Page.searchToCoords p) (Page.userLocation p)
    (Page.possibleRoutes p) (Page.isSelectingRoute p) (Page.showRoutePanel p)
    (Page.currentRoute p) (Page.isLoading p) (message :: Page.alerts p).

(** [(searchFrom === 'Current Location' && userLocation) ? userLocation
    : searchFromCoords] *)
Definition route_start (p : Page.t) : option Coordinates.t :=
  match Page.userLocation p with
  | Some here =>
      if String.eqb (Page.searchFrom p) "Current Location" then Some here
      else Page.searchFromCoords p
  | None => Page.searchFromCoords p
  end.

(** [handleSearchRoutes]: how the promise settles, the page it leaves and
    the gateway's state.  A rejection of [getDirections] is not caught. *)
Definition handleSearchRoutes (net : Network.t) (p : Page.t) (w : World)
  : Promise unit * Page.t * World :=
  match route_start p, Page.searchToCoords p with
  | Some start, Some end_ =>
      let p := setLoading true (setIsSearchPageOpen false p) in
      match getDirections net start end_ w with
      | (Fulfilled realRoute, w') =>
          let p :=
            match realRoute with
            | Some r =>
                setIsSelectingRoute true
                  (setPossibleRoutes (generateRouteVariants r) p)
            | None => alert "Unable to find route. Please try again." p
            end in
          (Fulfilled tt, setLoading false p, w')
      | (RejectedWith e, w') => (RejectedWith e, p, w')
      end
  | _, _ => (Fulfilled tt, alert "Please select valid locations." p, w)
  end.

Definition handleSelectRoute (route : CalculatedRoute.t) (p : Page.t)
  : Page.t :=
  setShowRoutePanel true
    (setPossibleRoutes []
       (setIsSelectingRoute false (setRoute (Some route) p))).

(** [window.selectRoute]: the handler of the popup buttons. *)
Definition selectRoute (routeId : string) (p : Page.t) : Page.t :=
  match find (fun r => String.eqb (CalculatedRoute.id r) routeId)
             (Page.possibleRoutes p) with
  | Some selected => handleSelectRoute selected p
  | None => p
  end.

(* ================================================================== *)
(** ** More definitions the statements use *)
(* ================================================================== *)

Definition finite (x : number) : bool :=
  match x with
  | Fin _ => true
  | _ => false
  end.


(** [x] stands at [l]'s position [i]. *)
Definition at_index {A : Type} (l : list A) (i : nat) (x : A) : Prop :=
  nth_error l i = Some x.

Definition sum_numbers (l : list number) : number :=
  fold_left add l (num 0).


(** *** Nearest node *)



(** A table of tentative distances and a queue, as the search holds them
    once the market's two neighbours are reached. *)
Definition tentative : Rec number :=
  [ ("ts_palengke", num 0); ("visayas_ave", num 15); ("comm_ave", num 20);
    ("technohub", Infinity); ("culiat_tricycle", Infinity) ].

(** *** Local search *)

(** [t] occurs in [s]. *)
Definition contains (s t : string) : Prop := exists a b, s = a ++ t ++ b.

Fixpoint has_comma (s : string) : bool :=
  match s with
  | EmptyString => false
  | String c rest => Ascii.eqb c ","%char || has_comma rest
  end.

(** *** What the gateway returns *)

Definition by_car (s : RouteStep.t) : Prop := RouteStep.type s = "CAR".

(** The reply [getDirections] can use: an OK response whose body parses
    and whose first feature has a line and a summary. *)
Definition usable_reply (status : Z) (text : string)
  (segments : option (list Segment.t)) (distKm duration : number)
  (coords : list (number * number)) (rest : list DirectionsFeature.t)
  : Settled DirectionsFeature.t :=
  Resolved
    (Response.mk true status text
       (Json
          (Collection.mk
             (Some
                (DirectionsFeature.mk
                   (Some (DirectionsProps.mk segments
                            (Some (Summary.mk distKm duration))))
                   (Some (LineGeometry.mk (Some coords)))
                 :: rest))))).

(** What [searchPlaces] makes of a feature that has its properties and its
    geometry: GeoJSON writes a position as [[lng, lat]]. *)
Definition place_of (feature : SearchFeature.t) : option Place.t :=
  match SearchFeature.properties feature, SearchFeature.geometry feature with
  | Some props, Some geom =>
      Some (Place.mk (SearchProps.name props) (SearchProps.label props)
              (snd (PointGeometry.coordinates geom))
              (fst (PointGeometry.coordinates geom)))
  | _, _ => None
  end.

Definition well_formed (feature : SearchFeature.t) : bool :=
  match place_of feature with
  | Some _ => true
  | None => false
  end.

(** A search reply that parses and lists [fs]. *)
Definition search_reply (took status : Z) (text : string)
  (fs : list SearchFeature.t) : Arrival.t SearchFeature.t :=
  Arrival.mk took
    (Resolved (Response.mk true status text (Json (Collection.mk (Some fs))))).

Definition trinoma_feature : SearchFeature.t :=
  SearchFeature.mk (Some (SearchProps.mk "Trinoma" "Trinoma, Quezon City"))
    (Some (PointGeometry.mk (lit 121.0330, lit 14.6540))).

(** A provider whose search lists one place and one feature without
    members. *)
Definition careless_network : Network.t :=
  Network.mk
    (fun _ _ =>
       search_reply 150 200 "OK"
         [trinoma_feature; SearchFeature.mk None None])
    (Network.reverse quick_network)
    (Network.directions quick_network).

(** The itinerary [getDirections] makes of 6 km in 900 s, asked of
    [directions_network] in the [morning]. *)
Definition morning_route : CalculatedRoute.t :=
  CalculatedRoute.mk "route-1700000000150" (num 15) (num 6) (num 17)
    [Coordinates.mk (lit 14.6741) (lit 121.0359);
     Coordinates.mk (lit 14.6575) (lit 121.0580)]
    [] FASTEST ["Fare"; "Distance"; "Time"].

Definition after_morning_route : World :=
  mkWorld 1700000000150 1700000000000 [(1700000000000%Z, Directions)].

(** *** Sessions of the gateway *)

(** A call of the gateway, and a session: calls made one after the other,
    each awaited before the next begins. *)
Inductive Call : Type :=
| CallSearch (query : string)
| CallReverse (lat lng : number)
| CallDirections (start end_ : Coordinates.t).

Definition perform (net : Network.t) (w : World) (c : Call) : World :=
  match c with
  | CallSearch query => snd (searchPlaces net query w)
  | CallReverse lat lng => snd (reverseGeocode net lat lng w)
  | CallDirections start end_ => snd (getDirections net start end_ w)
  end.

Definition session (net : Network.t) (calls : list Call) (w : World) : World :=
  fold_left (perform net) calls w.

(** The pause each endpoint keeps from the request before it. *)
Definition gap (e : Endpoint) : Z :=
  match e with
  | GeocodeSearch => 200
  | GeocodeReverse => 500
  | Directions => MIN_CALL_INTERVAL
  end.

(** Every request of the log, newest first, left at least its endpoint's
    pause after the one before it. *)
Fixpoint spaced (log : list (Z * Endpoint)) : Prop :=
  match log with
  | (t2, e2) :: rest =>
      match rest with
      | (t1, _) :: _ => (gap e2 <= t2 - t1)%Z
      | [] => True
      end /\ spaced rest
  | [] => True
  end.

(** No reply arrives before its request left. *)
Definition causal (net : Network.t) : Prop :=
  (forall q t, (0 <= Arrival.took (Network.search net q t))%Z)
  /\ (forall lat lng t, (0 <= Arrival.took (Network.reverse net lat lng t))%Z)
  /\ (forall s e t, (0 <= Arrival.took (Network.directions net s e t))%Z).

(** The module as it is loaded at time [now]: [lastCallTime] is 0. *)
Definition loaded (now : Z) : World := mkWorld now 0 [].

(** [lastCallTime] is the time of the newest request, and not ahead of
    the clock. *)
Definition tracked (w : World) : Prop :=
  (lastCallTime w <= clock w)%Z
  /\ match sent w with
     | (t, _) :: _ => t = lastCallTime w
     | [] => True
     end
  /\ spaced (sent w).

(** *** The page *)

(** The page with both endpoints chosen and nothing on offer yet. *)
Definition search_page : Page.t :=
  Page.mk true "Tandang Sora Palengke" (Some palengke_point)
    (Some technohub_point) None [] false false None false [].

(** The page once [handleSearchRoutes] has put the three variants of
    [morning_route] on offer. *)
Definition offer_page : Page.t :=
  Page.mk false "Tandang Sora Palengke" (Some palengke_point)
    (Some technohub_point) None (generateRouteVariants morning_route)
    true false None false [].

Definition cheap_variant : CalculatedRoute.t :=
  CalculatedRoute.mk "route-1700000000150_cheap" (num 20) (num 6) (num 13)
    (CalculatedRoute.path morning_route) [] CHEAPEST ["Budget"; "Saver"].
(* ================================================================== *)
(** ** Numerals: printing and reading back *)
(* ================================================================== *)

Section Numerals.
Local Open Scope N_scope.

Lemma value_of_digits_app (a b : string) (acc : N) :
  value_of_digits (a ++ b) acc = value_of_digits b (value_of_digits a acc).
Proof.
  revert acc. induction a as [|c a IH]; intros acc; simpl; [reflexivity|].
  apply IH.
Qed.

Lemma N_of_digit (d : N) : d < 10 -> N_of_ascii (digit d) = 48 + d.
Proof. intros H. unfold digit. apply N_ascii_embedding. lia. Qed.

Lemma digit_value_digit (d : N) : d < 10 -> digit_value (digit d) = d.
Proof.
  intros H. unfold digit_value. rewrite N_of_digit by assumption. lia.
Qed.

Lemma is_digit_digit (d : N) : d < 10 -> is_digit (digit d) = true.
Proof.
  intros H. unfold is_digit. rewrite N_of_digit by assumption.
  apply andb_true_intro. split; apply N.leb_le; lia.
Qed.

Lemma value_fixed_digits (w : nat) (n acc : N) :
  value_of_digits (fixed_digits w n) acc
  = acc * 10 ^ N.of_nat w + n mod 10 ^ N.of_nat w.
Proof.
  revert n acc. induction w as [|w IH]; intros n acc.
  - simpl. rewrite N.mod_1_r. lia.
  - cbn [fixed_digits]. rewrite value_of_digits_app, IH. cbn [value_of_digits].
    rewrite digit_value_digit by (apply N.mod_lt; lia).
    rewrite Nat2N.inj_succ, N.pow_succ_r'.
    set (p := 10 ^ N.of_nat w).
    assert (Hp : p <> 0) by (apply N.pow_nonzero; lia).
    rewrite (N.Div0.mod_mul_r n 10 p).
    lia.
Qed.

Lemma all_digits_app a b :
  all_digits (a ++ b) = all_digits a && all_digits b.
Proof.
  induction a as [|c a IH]; simpl; [reflexivity|].
  rewrite IH. apply andb_assoc.
Qed.

Lemma all_digits_fixed w n : all_digits (fixed_digits w n) = true.
Proof.
  revert n. induction w as [|w IH]; intros n; [reflexivity|].
  cbn [fixed_digits]. rewrite all_digits_app, IH. cbn [all_digits].
  rewrite is_digit_digit by (apply N.mod_lt; lia). reflexivity.
Qed.

(** [strip_zeros] either leaves its argument alone or drops one zero that
    has something behind it. *)
Lemma strip_zeros_cases s :
  strip_zeros s = s \/
  exists rest, s = String "0"%char rest /\ rest <> EmptyString
               /\ strip_zeros s = strip_zeros rest.
Proof.
  destruct s as [|c s]; [left; reflexivity|].
  destruct (Ascii.eqb_spec c "0"%char) as [->|Hc].
  - destruct s as [|c' s']; [left; reflexivity|].
    right. exists (String c' s'). repeat split. discriminate.
  - left. destruct c as [[] [] [] [] [] [] [] []]; try reflexivity.
    exfalso; apply Hc; reflexivity.
Qed.

Lemma value_strip_zeros s :
  value_of_digits (strip_zeros s) 0 = value_of_digits s 0.
Proof.
  induction s as [|c s IH]; [reflexivity|].
  destruct (strip_zeros_cases (String c s)) as [->|(rest & E & _ & ->)];
    [reflexivity|].
  injection E as -> ->. rewrite IH. reflexivity.
Qed.

Lemma all_digits_strip s :
  all_digits s = true -> all_digits (strip_zeros s) = true.
Proof.
  induction s as [|c s IH]; intros H; [reflexivity|].
  destruct (strip_zeros_cases (String c s)) as [->|(rest & E & _ & ->)];
    [assumption|].
  injection E as -> ->. apply IH. cbn [all_digits] in H.
  apply andb_prop in H. apply H.
Qed.

Lemma strip_zeros_nonempty s :
  s <> EmptyString -> strip_zeros s <> EmptyString.
Proof.
  induction s as [|c s IH]; intros H; [assumption|].
  destruct (strip_zeros_cases (String c s)) as [->|(rest & E & Hr & ->)];
    [assumption|].
  injection E as -> ->. apply IH, Hr.
Qed.

Lemma fixed_digits_nonempty w n : fixed_digits (S w) n <> EmptyString.
Proof.
  cbn [fixed_digits]. destruct (fixed_digits w (n / 10)); discriminate.
Qed.

(** Reading the numeral of [n] gives [n] back. *)
Lemma digits_value n : value_of_digits (digits n) 0 = n.
Proof.
  unfold digits. rewrite value_strip_zeros, value_fixed_digits.
  rewrite N.mul_0_l, N.add_0_l. apply N.mod_small.
  destruct (N.eq_dec n 0) as [->|Hn]; [reflexivity|].
  rewrite Nat2N.inj_succ, N2Nat.id.
  apply N.lt_le_trans with (2 ^ N.succ (N.log2 n)).
  - apply N.log2_spec. lia.
  - apply N.pow_le_mono_l. lia.
Qed.

Lemma all_digits_digits n : all_digits (digits n) = true.
Proof. apply all_digits_strip, all_digits_fixed. Qed.

Lemma digits_nonempty n : digits n <> EmptyString.
Proof. apply strip_zeros_nonempty, fixed_digits_nonempty. Qed.

Lemma digits_head n :
  exists c rest, digits n = String c rest /\ is_digit c = true.
Proof.
  pose proof (all_digits_digits n) as H. pose proof (digits_nonempty n) as Hn.
  destruct (digits n) as [|c rest]; [contradiction|].
  exists c, rest. split; [reflexivity|].
  simpl in H. apply andb_prop in H. apply H.
Qed.

Lemma span_digits_app a rest :
  all_digits a = true -> stops rest = true ->
  span_digits (a ++ rest) = (a, rest).
Proof.
  intros Ha Hr. induction a as [|c a IH].
  - simpl. destruct rest as [|c r]; [reflexivity|].
    simpl in *. destruct (is_digit c); [discriminate|reflexivity].
  - simpl in Ha. apply andb_prop in Ha. destruct Ha as [Hc Ha].
    cbn [append span_digits]. rewrite Hc, (IH Ha). reflexivity.
Qed.

Lemma length_append (a b : string) :
  String.length (a ++ b) = (String.length a + String.length b)%nat.
Proof.
  induction a as [|c a IH]; simpl; [reflexivity|]. rewrite IH. reflexivity.
Qed.

Lemma length_fixed_digits w n : String.length (fixed_digits w n) = w.
Proof.
  revert n. induction w as [|w IH]; intros n; [reflexivity|].
  cbn [fixed_digits]. rewrite length_append, IH. simpl. lia.
Qed.

End Numerals.

(* ================================================================== *)
(** ** The order on numbers *)
(* ================================================================== *)

Section NumberOrder.

Lemma Qlt_bool_iff x y : Qlt_bool x y = true <-> x < y.
Proof.
  unfold Qlt_bool. rewrite negb_true_iff.
  split; intros H.
  - apply Qnot_le_lt. intros Hle. apply Qle_bool_iff in Hle. congruence.
  - apply not_true_is_false. intros Hle. apply Qle_bool_iff in Hle.
    apply (Qlt_not_le _ _ H Hle).
Qed.

Lemma ltb_Fin x y : ltb (Fin x) (Fin y) = true <-> x < y.
Proof. apply Qlt_bool_iff. Qed.

Lemma leb_Fin x y : leb (Fin x) (Fin y) = true <-> x <= y.
Proof.
  unfold leb. cbn [ltb eqb]. rewrite orb_true_iff, Qlt_bool_iff, Qeq_bool_iff.
  split.
  - intros [H|H]; [apply Qlt_le_weak, H | rewrite H; apply Qle_refl].
  - intros H. destruct (Qlt_le_dec x y) as [Hlt|Hge]; [left; exact Hlt|].
    right. apply Qle_antisym; assumption.
Qed.

(** [<=] is transitive outright: a comparison that holds has no NaN on
    either side. *)
Lemma leb_trans a b c : leb a b = true -> leb b c = true -> leb a c = true.
Proof.
  destruct a as [| | |x], b as [| | |y], c as [| | |z];
    try discriminate; try reflexivity.
  rewrite !leb_Fin. apply Qle_trans.
Qed.

Lemma Math_max_Fin x y :
  Math_max (Fin x) (Fin y) = if Qlt_bool x y then Fin y else Fin x.
Proof. reflexivity. Qed.

Lemma distance_like_nonneg w : leb (num 0) w = true -> distance_like w = true.
Proof. destruct w; try discriminate; reflexivity. Qed.

Lemma distance_like_add a b :
  distance_like a = true -> distance_like b = true ->
  distance_like (add a b) = true.
Proof. destruct a, b; try discriminate; reflexivity. Qed.

Lemma add_mono_l a b w :
  distance_like a = true -> distance_like b = true -> distance_like w = true ->
  leb a b = true -> leb (add a w) (add b w) = true.
Proof.
  destruct a as [| | |x], b as [| | |y], w as [| | |z];
    try discriminate; try reflexivity.
  intros _ _ _. cbn [add]. rewrite !leb_Fin, !Qred_correct.
  intros H. apply Qplus_le_compat; [exact H | apply Qle_refl].
Qed.

Lemma add_assoc a b c :
  distance_like a = true -> distance_like b = true -> distance_like c = true ->
  add (add a b) c = add a (add b c).
Proof.
  destruct a as [| | |x], b as [| | |y], c as [| | |z];
    try discriminate; try reflexivity.
  intros _ _ _. cbn [add]. f_equal. apply Qred_complete.
  rewrite !Qred_correct. symmetry. apply Qplus_assoc.
Qed.

Lemma add_zero_le w : distance_like w = true -> leb (add (num 0) w) w = true.
Proof.
  destruct w as [| | |x]; try discriminate; try reflexivity.
  intros _. cbn [add num]. rewrite leb_Fin, Qred_correct, Qplus_0_l.
  apply Qle_refl.
Qed.

End NumberOrder.

Section RoundTrip.

Lemma append_nil_r (s : string) : s ++ EmptyString = s.
Proof.
  induction s as [|c s IH]; simpl; [reflexivity|]. rewrite IH. reflexivity.
Qed.

Lemma digit_not_space c : is_digit c = true -> is_space c = false.
Proof. destruct c as [[] [] [] [] [] [] [] []]; try discriminate; reflexivity. Qed.

Lemma split_sign_digit c r :
  is_digit c = true -> split_sign (String c r) = (false, String c r).
Proof. destruct c as [[] [] [] [] [] [] [] []]; try discriminate; reflexivity. Qed.

Lemma prefix_Infinity_digit c r :
  is_digit c = true -> String.prefix "Infinity" (String c r) = false.
Proof. destruct c as [[] [] [] [] [] [] [] []]; try discriminate; reflexivity. Qed.

Lemma toFixed_Fin q f :
  toFixed (Fin q) f
  = (if Qlt_bool q 0 then "-" else EmptyString)
    ++ fixed_numeral (scaled_round q f) f.
Proof. reflexivity. Qed.

Lemma fixed_numeral_head n f :
  exists c rest, fixed_numeral n f = String c rest /\ is_digit c = true.
Proof.
  unfold fixed_numeral.
  destruct (digits_head (n / 10 ^ N.of_nat f)) as (c & rest & -> & Hc).
  eexists c, _. split; [reflexivity | exact Hc].
Qed.

Lemma pow10_Z_of_N f : Z.of_N (10 ^ N.of_nat f) = (10 ^ Z.of_nat f)%Z.
Proof. rewrite N2Z.inj_pow, nat_N_Z. reflexivity. Qed.

(** The numeral of [n] with a point before its last [f] digits reads as
    [n / 10^f]. *)
Lemma decimal_literal_fixed n f :
  exists m, decimal_literal (fixed_numeral n f) = Some m
            /\ m == inject_Z (Z.of_N n) / inject_Z (10 ^ Z.of_nat f).
Proof.
  unfold decimal_literal, fixed_numeral.
  set (p := (10 ^ N.of_nat f)%N).
  assert (Hp : p <> 0%N) by (apply N.pow_nonzero; discriminate).
  assert (Hpz : ~ inject_Z (Z.of_N p) == 0).
  { unfold Qeq, inject_Z; simpl. lia. }
  pose proof (digits_nonempty (n / p)) as Hne.
  destruct f as [|f'].
  - rewrite span_digits_app by (auto using all_digits_digits).
    replace (falsy_string (digits (n / p))) with false
      by (destruct (digits (n / p)); [contradiction | reflexivity]).
    cbn [andb String.length exponent_of]. eexists; split; [reflexivity|].
    rewrite digits_value. subst p. simpl N.of_nat. rewrite N.pow_0_r, N.div_1_r.
    simpl. field.
  - rewrite span_digits_app by (auto using all_digits_digits).
    cbn [append].
    rewrite <- (append_nil_r (fixed_digits (S f') (n mod p))).
    rewrite span_digits_app by (auto using all_digits_fixed).
    replace (falsy_string (digits (n / p))) with false
      by (destruct (digits (n / p)); [contradiction | reflexivity]).
    cbn [andb exponent_of]. eexists; split; [reflexivity|].
    rewrite digits_value, value_fixed_digits, length_fixed_digits.
    fold p. rewrite N.mul_0_l, N.add_0_l, N.Div0.mod_mod.
    rewrite <- pow10_Z_of_N. fold p.
    rewrite (N.div_mod n p Hp) at 3.
    rewrite N2Z.inj_add, N2Z.inj_mul, !inject_Z_plus, !inject_Z_mult.
    simpl Qpower. field. exact Hpz.
Qed.

(** [parseFloat(x.toFixed(f))] is [x] rounded to [f] decimals. *)
Lemma parseFloat_toFixed x f : parseFloat (toFixed x f) = round_to x f.
Proof.
  destruct x as [| | |q]; try reflexivity.
  rewrite toFixed_Fin. unfold round_to.
  destruct (decimal_literal_fixed (scaled_round q f) f) as (m & Hm & Em).
  destruct (fixed_numeral_head (scaled_round q f) f) as (c & rest & E & Hc).
  unfold parseFloat.
  destruct (Qlt_bool q 0).
  - change ("-" ++ fixed_numeral (scaled_round q f) f)
      with (String "-" (fixed_numeral (scaled_round q f) f)).
    cbn [trim_start]. change (is_space "-") with false. cbv iota.
    cbn [split_sign].
    rewrite E, prefix_Infinity_digit by exact Hc. rewrite <- E, Hm.
    f_equal. apply Qred_complete. rewrite Em. reflexivity.
  - cbn [append]. rewrite E. cbn [trim_start].
    rewrite digit_not_space by exact Hc.
    rewrite split_sign_digit, prefix_Infinity_digit by exact Hc.
    rewrite <- E, Hm. f_equal. apply Qred_complete. exact Em.
Qed.

(** [round_to] does round: its result is a multiple of [10^-f] within half
    a unit of the last place of its argument. *)
Lemma round_to_nearest q f r :
  round_to (Fin q) f = Fin r ->
  (exists k : Z, r == inject_Z k / inject_Z (10 ^ Z.of_nat f))
  /\ Qabs (r - q) <= (1 # 2) / inject_Z (10 ^ Z.of_nat f).
Proof.
  unfold round_to. intros H. injection H as <-.
  set (p := inject_Z (10 ^ Z.of_nat f)).
  assert (Hp : 0 < p).
  { subst p. change 0 with (inject_Z 0). rewrite <- Zlt_Qlt.
    apply Z.pow_pos_nonneg; lia. }
  set (n := inject_Z (Z.of_N (scaled_round q f))).
  assert (Hn : n <= Qabs q * p + (1 # 2) /\ Qabs q * p + (1 # 2) < n + 1).
  { subst n. unfold scaled_round. fold p.
    assert (H0 : (0 <= Qfloor (Qabs q * p + (1 # 2)))%Z).
    { change 0%Z with (Qfloor 0). apply Qfloor_resp_le.
      pose proof (Qabs_nonneg q). nra. }
    rewrite Z2N.id by exact H0. split; [apply Qfloor_le|].
    pose proof (Qlt_floor (Qabs q * p + (1 # 2))) as L.
    rewrite inject_Z_plus in L. exact L. }
  assert (Up : (1 # 2) / p * p == 1 # 2) by (field; lra).
  assert (Lo : - ((1 # 2) / p) * p == - (1 # 2)) by (field; lra).
  destruct (Qlt_bool q 0) eqn:Es.
  - split.
    + exists (- Z.of_N (scaled_round q f))%Z. rewrite Qred_correct.
      rewrite inject_Z_opp. fold n. field. lra.
    + apply Qlt_bool_iff in Es.
      assert (Ea : Qabs q == - q) by (apply Qabs_neg; lra).
      rewrite Qred_correct. apply Qabs_Qle_condition.
      assert (Hd : - (n / p) - q == (- q * p - n) / p) by (field; lra).
      rewrite Hd, Ea in *. split.
      * apply Qle_shift_div_l; [exact Hp|]. rewrite Lo. lra.
      * apply Qle_shift_div_r; [exact Hp|]. rewrite Up. lra.
  - split.
    + exists (Z.of_N (scaled_round q f)). rewrite Qred_correct. reflexivity.
    + apply not_true_iff_false in Es. rewrite Qlt_bool_iff in Es.
      assert (Ea : Qabs q == q) by (apply Qabs_pos; lra).
      rewrite Qred_correct. apply Qabs_Qle_condition.
      assert (Hd : n / p - q == (n - q * p) / p) by (field; lra).
      rewrite Hd, Ea in *. split.
      * apply Qle_shift_div_l; [exact Hp|]. rewrite Lo. lra.
      * apply Qle_shift_div_r; [exact Hp|]. rewrite Up. lra.
Qed.

Lemma Z_of_string_digit c rest :
  is_digit c = true ->
  Z_of_string (String c rest) = Z.of_N (value_of_digits (String c rest) 0).
Proof. destruct c as [[] [] [] [] [] [] [] []]; try discriminate; reflexivity. Qed.

Lemma Z_of_string_of_Z z : Z_of_string (string_of_Z z) = z.
Proof.
  unfold string_of_Z. destruct (Z.ltb_spec z 0) as [Hneg|Hpos].
  - change ("-" ++ digits (Z.abs_N z)) with (String "-" (digits (Z.abs_N z))).
    cbn [Z_of_string]. rewrite digits_value. lia.
  - cbn [append].
    destruct (digits_head (Z.abs_N z)) as (c & rest & E & Hc).
    rewrite E, Z_of_string_digit by exact Hc. rewrite <- E, digits_value. lia.
Qed.

(** Two integers with the same numeral are the same integer. *)
Lemma string_of_Z_inj a b : string_of_Z a = string_of_Z b -> a = b.
Proof.
  intros H. rewrite <- (Z_of_string_of_Z a), <- (Z_of_string_of_Z b), H.
  reflexivity.
Qed.

End RoundTrip.

(* ================================================================== *)
(** ** The pathfinder *)
(* ================================================================== *)

(** *** The main loop ends within its bound *)

Section MainLoop.

Context {A : Type} (cmp : A -> A -> number).

Lemma before_length x l : List.length (before cmp x l) = S (List.length l).
Proof.
  induction l as [|y l IH]; [reflexivity|].
  cbn [before]. destruct (positive_number (cmp x y)); [|reflexivity].
  cbn [List.length]. rewrite IH. reflexivity.
Qed.

Lemma sort_length l : List.length (sort cmp l) = List.length l.
Proof.
  induction l as [|x l IH]; [reflexivity|].
  cbn [sort fold_right]. fold (sort cmp l). rewrite before_length, IH.
  reflexivity.
Qed.

Lemma before_In x l z : In z (before cmp x l) <-> z = x \/ In z l.
Proof.
  induction l as [|y l IH]; cbn [before].
  - cbn. intuition congruence.
  - destruct (positive_number (cmp x y)); cbn [In]; [rewrite IH|];
      intuition congruence.
Qed.

(** Sorting only reorders. *)
Lemma sort_In l z : In z (sort cmp l) <-> In z l.
Proof.
  induction l as [|x l IH]; [reflexivity|].
  cbn [sort fold_right]. fold (sort cmp l). rewrite before_In, IH.
  cbn [In]. intuition congruence.
Qed.

End MainLoop.

Lemma relax_queue metric u st c : queue (relax metric u st c) = queue st.
Proof.
  unfold relax. destruct (has _ _); [reflexivity|].
  destruct (ltb _ _); reflexivity.
Qed.

Lemma relax_all_queue metric u cs st :
  queue (fold_left (relax metric u) cs st) = queue st.
Proof.
  revert st. induction cs as [|c cs IH]; intros st; [reflexivity|].
  cbn [fold_left]. rewrite IH. apply relax_queue.
Qed.

(** Each turn shifts one node off the queue: a bound of the queue's
    length is never exhausted. *)
Lemma main_loop_finishes metric endNodeId fuel st :
  (List.length (queue st) <= fuel)%nat ->
  main_loop metric endNodeId fuel st <> Unfinished.
Proof.
  revert st. induction fuel as [|fuel IH]; intros st Hlen.
  - destruct (queue st) as [|k q] eqn:E; [|simpl in Hlen; lia].
    cbn [main_loop]. rewrite E. discriminate.
  - cbn [main_loop].
    pose proof (sort_length
                  (fun a b => sub (distance_of (distances st) a)
                                  (distance_of (distances st) b))
                  (queue st)) as Hs.
    destruct (sort _ (queue st)) as [|u rest]; [discriminate|].
    cbn [distances].
    destruct (falsy_string u || eqb (distance_of (distances st) u) Infinity);
      [discriminate|].
    destruct (String.eqb u endNodeId); [discriminate|].
    destruct (get GRAPH_NODES u) as [node|]; cbn [deref cbind];
      [|discriminate].
    apply IH. cbn [queue]. rewrite relax_all_queue. cbn [queue].
    simpl in Hs. lia.
Qed.

(** *** Reference distances bound every walk *)

Section Reference.

Variable metric : Metric.
Variable d : Rec number.
Hypothesis d_settled : settled_table metric d = true.

Lemma settled_edge u c :
  In (u, c) all_edges ->
  distance_like (distance_of d u) = true
  /\ distance_like (distance_of d (Connection.targetId c)) = true
  /\ leb (num 0) (weight_of metric c) = true
  /\ leb (distance_of d (Connection.targetId c))
         (add (distance_of d u) (weight_of metric c)) = true.
Proof.
  intros Hin. unfold settled_table in d_settled.
  rewrite forallb_forall in d_settled. specialize (d_settled _ Hin).
  cbv beta iota in d_settled.
  repeat (apply andb_prop in d_settled; destruct d_settled as [d_settled ?]).
  auto.
Qed.

Lemma walk_weight_distance_like u v es :
  Walk u v es -> distance_like (walk_weight metric es) = true.
Proof.
  induction 1 as [u|u v c rest Hin _ IH]; [reflexivity|].
  cbn [walk_weight fold_right snd]. apply distance_like_add; [|exact IH].
  apply distance_like_nonneg. apply (settled_edge _ _ Hin).
Qed.

(** By induction on the walk: a table no edge can shorten stays below the
    entry of the walk's first node plus the walk's weight. *)
Lemma settled_walk u v es :
  Walk u v es ->
  distance_like (distance_of d u) = true ->
  leb (distance_of d v) (add (distance_of d u) (walk_weight metric es)) = true.
Proof.
  induction 1 as [u|u v c rest Hin Hw IH]; intros Hu.
  - cbn [walk_weight fold_right].
    destruct (distance_of d u) as [| | |x]; try discriminate; try reflexivity.
    cbn [add num]. rewrite leb_Fin, Qred_correct, Qplus_0_r. apply Qle_refl.
  - destruct (settled_edge _ _ Hin) as (_ & Ht & Hw0 & Hle).
    specialize (IH Ht).
    pose proof (walk_weight_distance_like _ _ _ Hw) as HW.
    pose proof (distance_like_nonneg _ Hw0) as Hwd.
    eapply leb_trans; [exact IH|].
    change (walk_weight metric ((u, c) :: rest))
      with (add (weight_of metric c) (walk_weight metric rest)).
    rewrite <- add_assoc by assumption.
    apply add_mono_l; auto using distance_like_add.
Qed.

End Reference.

(** Every edge weight of the graph is non-negative, in each metric. *)
Lemma weights_nonnegative metric u c :
  In (u, c) all_edges -> leb (num 0) (weight_of metric c) = true.
Proof.
  intros Hin.
  assert (H : forallb (fun e : string * Connection.t =>
                         leb (num 0) (weight_of metric (snd e)))
                      all_edges = true)
    by (destruct metric; vm_compute; reflexivity).
  rewrite forallb_forall in H. exact (H _ Hin).
Qed.

Ltac each_node H :=
  cbv [node_ids Object_keys GRAPH_NODES map fst] in H;
  repeat (destruct H as [<-|H]; [|]); [.. | destruct H].

Lemma bellman_ford_settled metric s :
  In s node_ids ->
  settled_table metric (bellman_ford metric s) = true
  /\ distance_of (bellman_ford metric s) s = num 0.
Proof.
  intros Hin.
  each_node Hin; destruct metric; vm_compute; split; reflexivity.
Qed.

(** No walk from [s] to [e] weighs less than the reference distance. *)
Lemma reference_lower_bound metric s e es :
  In s node_ids -> Walk s e es ->
  leb (reference_distance metric s e) (walk_weight metric es) = true.
Proof.
  intros Hin Hw. destruct (bellman_ford_settled metric s Hin) as [Hset H0].
  pose proof (settled_walk metric _ Hset s e es Hw) as H.
  rewrite H0 in H. specialize (H eq_refl).
  eapply leb_trans; [exact H|].
  apply add_zero_le. eapply walk_weight_distance_like; eassumption.
Qed.

(** *** Resolution *)

Lemma nearer_fold lat lng nodes acc s :
  snd (fold_left (nearer lat lng) nodes acc) = Some s ->
  snd acc = Some s \/ In s (map GraphNode.id nodes).
Proof.
  revert acc. induction nodes as [|node nodes IH]; intros acc H.
  - left. exact H.
  - cbn [fold_left] in H. apply IH in H. destruct H as [H|H].
    + unfold nearer in H. destruct acc as [minDesc nearestId].
      destruct (root_ltb _ minDesc); cbn [snd] in H.
      * right. left. congruence.
      * left. exact H.
    + right. right. exact H.
Qed.

(** A point resolves to one of the five nodes, if to any. *)
Lemma findNearestNode_range lat lng s :
  findNearestNode lat lng = Some s -> In s node_ids.
Proof.
  intros H. apply nearer_fold in H. destruct H as [H|H]; [discriminate|].
  exact H.
Qed.

(** A coordinate that is not a number resolves to no node. *)
Example findNearestNode_NaN : findNearestNode NaN (lit 121.0359) = None.
Proof. vm_compute. reflexivity. Qed.

(** The search never throws and never exhausts its iteration bounds. *)
Lemma calculateRoute_returns start end_ metric now :
  exists o, calculateRoute start end_ metric now = Normal o.
Proof.
  unfold calculateRoute.
  destruct (findNearestNode (Coordinates.lat start) (Coordinates.lng start))
    as [s|] eqn:Hs; [|eexists; reflexivity].
  destruct (findNearestNode (Coordinates.lat end_) (Coordinates.lng end_))
    as [e|] eqn:He; [|eexists; reflexivity].
  pose proof (findNearestNode_range _ _ _ Hs) as Is.
  pose proof (findNearestNode_range _ _ _ He) as Ie.
  generalize ("route-" ++ string_of_Z now). intros id.
  each_node Is; each_node Ie; destruct metric;
    eexists; vm_compute; reflexivity.
Qed.

(** *** Optimality *)

(** C1. Whenever [calculateRoute] returns an itinerary, its points resolve
    to two nodes [s] and [e], its path is the coordinates of a node path
    [p] from [s] to [e], and the itinerary's total in the chosen metric
    is the sum of the metric's edge weights along [p], equals the
    Bellman-Ford distance from [s] to [e], and is not undercut by any
    walk of the graph from [s] to [e]. *)
Theorem calculateRoute_optimal start end_ metric now r :
  calculateRoute start end_ metric now = Normal (Some r) ->
  exists s e p,
    resolve start = Some s
    /\ resolve end_ = Some e
    /\ search_path s e metric = Normal (Some p)
    /\ path_coords p = Normal (CalculatedRoute.path r)
    /\ hd_error p = Some s
    /\ last p EmptyString = e
    /\ path_weight metric p (num 0) = Some (metric_total metric r)
    /\ metric_total metric r = reference_distance metric s e
    /\ forall es, Walk s e es ->
         leb (metric_total metric r) (walk_weight metric es) = true.
Proof.
  intros H. unfold calculateRoute in H. unfold resolve.
  destruct (findNearestNode (Coordinates.lat start) (Coordinates.lng start))
    as [s|] eqn:Hs; [|discriminate].
  destruct (findNearestNode (Coordinates.lat end_) (Coordinates.lng end_))
    as [e|] eqn:He; [|discriminate].
  exists s, e.
  pose proof (findNearestNode_range _ _ _ Hs) as Is.
  pose proof (findNearestNode_range _ _ _ He) as Ie.
  clear Hs He.
  set (id := "route-" ++ string_of_Z now) in H. clearbody id.
  each_node Is; each_node Ie; destruct metric;
    vm_compute in H;
    try discriminate H;
    injection H as <-;
    (eexists; split; [reflexivity|]; split; [reflexivity|];
     do 6 (split; [vm_compute; reflexivity|]);
     intros es Hw;
     match goal with
     | |- leb ?t (walk_weight ?m _) = true =>
         match type of Hw with
         | Walk ?a ?b _ =>
             replace t with (reference_distance m a b)
               by (vm_compute; reflexivity)
         end
     end;
     apply reference_lower_bound; [vm_compute; tauto | exact Hw]).
Qed.

Lemma calculateRoute_optimal_witness :
  exists s e p,
    resolve palengke_point = Some s
    /\ resolve technohub_point = Some e
    /\ search_path s e TIME = Normal (Some p)
    /\ path_coords p
       = Normal (CalculatedRoute.path
                   (route_via_comm_ave "route-0" FASTEST ["Fastest"]))
    /\ hd_error p = Some s
    /\ last p EmptyString = e
    /\ path_weight TIME p (num 0) = Some (num 25)
    /\ num 25 = reference_distance TIME s e
    /\ forall es, Walk s e es -> leb (num 25) (walk_weight TIME es) = true.
Proof.
  apply (calculateRoute_optimal palengke_point technohub_point TIME 0
           (route_via_comm_ave "route-0" FASTEST ["Fastest"])).
  vm_compute. reflexivity.
Defined.

(** *** The graph-mode scenario *)

(** C2, as the code has it.  By TIME, from any point that resolves to
    [ts_palengke] to any point that resolves to [technohub],
    [calculateRoute] returns the itinerary over Commonwealth Avenue: the
    three nodes [ts_palengke], [comm_ave], [technohub], 25 minutes and
    15 pesos. *)
Theorem calculateRoute_palengke_technohub start end_ now :
  resolve start = Some "ts_palengke" ->
  resolve end_ = Some "technohub" ->
  calculateRoute start end_ TIME now
  = Normal (Some (route_via_comm_ave ("route-" ++ string_of_Z now)
                    FASTEST ["Fastest"]))
  /\ search_path "ts_palengke" "technohub" TIME
     = Normal (Some ["ts_palengke"; "comm_ave"; "technohub"])
  /\ path_coords ["ts_palengke"; "comm_ave"; "technohub"]
     = Normal [palengke_point; comm_ave_point; technohub_point]
  /\ CalculatedRoute.totalTimeMin
       (route_via_comm_ave ("route-" ++ string_of_Z now) FASTEST ["Fastest"])
     = num 25
  /\ CalculatedRoute.totalCost
       (route_via_comm_ave ("route-" ++ string_of_Z now) FASTEST ["Fastest"])
     = num 15.
Proof.
  unfold resolve. intros Hs He. unfold calculateRoute. rewrite Hs, He.
  generalize ("route-" ++ string_of_Z now). intros id.
  repeat split; vm_compute; reflexivity.
Qed.

Lemma calculateRoute_palengke_technohub_witness :
  calculateRoute palengke_point technohub_point TIME 0
  = Normal (Some (route_via_comm_ave ("route-" ++ string_of_Z 0)
                    FASTEST ["Fastest"]))
  /\ search_path "ts_palengke" "technohub" TIME
     = Normal (Some ["ts_palengke"; "comm_ave"; "technohub"])
  /\ path_coords ["ts_palengke"; "comm_ave"; "technohub"]
     = Normal [palengke_point; comm_ave_point; technohub_point]
  /\ CalculatedRoute.totalTimeMin
       (route_via_comm_ave ("route-" ++ string_of_Z 0) FASTEST ["Fastest"])
     = num 25
  /\ CalculatedRoute.totalCost
       (route_via_comm_ave ("route-" ++ string_of_Z 0) FASTEST ["Fastest"])
     = num 15.
Proof.
  apply (calculateRoute_palengke_technohub palengke_point technohub_point 0).
  - vm_compute. reflexivity.
  - vm_compute. reflexivity.
Defined.

(** C2, as the specification words it, fails at the two nodes' own
    coordinates: the itinerary returned there takes 25 minutes, not 40. *)
Lemma scenario_via_visayas_fails :
  resolve palengke_point = Some "ts_palengke"
  /\ resolve technohub_point = Some "technohub"
  /\ ~ scenario_via_visayas palengke_point technohub_point 0.
Proof.
  split; [vm_compute; reflexivity|]. split; [vm_compute; reflexivity|].
  intros (r & Hr & _ & Ht & _).
  vm_compute in Hr. injection Hr as <-. vm_compute in Ht. discriminate Ht.
Qed.

(** The route over Visayas Avenue exists and does take 40 minutes for 33
    pesos; the search passes it over for the faster one. *)
Example visayas_route_weighs_more :
  path_weight TIME ["ts_palengke"; "visayas_ave"; "technohub"] (num 0)
  = Some (num 40)
  /\ path_weight COST ["ts_palengke"; "visayas_ave"; "technohub"] (num 0)
     = Some (num 33)
  /\ path_weight TIME ["ts_palengke"; "comm_ave"; "technohub"] (num 0)
     = Some (num 25).
Proof. repeat split; vm_compute; reflexivity. Qed.

(** *** Degenerate requests *)

(** C5. When either point resolves to no node, or both resolve to the
    same node, or the two points are the same point, [calculateRoute]
    returns null: it completes normally, with no itinerary. *)
Theorem calculateRoute_no_route start end_ metric now :
  resolve start = None \/ resolve end_ = None
  \/ resolve start = resolve end_ \/ start = end_ ->
  calculateRoute start end_ metric now = Normal None.
Proof.
  unfold resolve, calculateRoute. intros H.
  assert (E : findNearestNode (Coordinates.lat start) (Coordinates.lng start)
              = None
          \/ findNearestNode (Coordinates.lat end_) (Coordinates.lng end_)
             = None
          \/ findNearestNode (Coordinates.lat start) (Coordinates.lng start)
             = findNearestNode (Coordinates.lat end_) (Coordinates.lng end_)).
  { destruct H as [H|[H|[H|H]]]; auto. subst. auto. }
  clear H.
  destruct (findNearestNode (Coordinates.lat start) (Coordinates.lng start))
    as [s|]; [|reflexivity].
  destruct (findNearestNode (Coordinates.lat end_) (Coordinates.lng end_))
    as [e|]; [|reflexivity].
  destruct E as [E|[E|E]]; try discriminate.
  injection E as ->. rewrite String.eqb_refl, orb_true_r. reflexivity.
Qed.

Lemma calculateRoute_no_route_witness :
  calculateRoute palengke_point palengke_point TIME 0 = Normal None.
Proof.
  apply (calculateRoute_no_route palengke_point palengke_point TIME 0).
  right. right. right. reflexivity.
Defined.

(* ================================================================== *)
(** ** The gateway *)
(* ================================================================== *)

(** Running a gateway call on a state whose three fields are known. *)
Ltac run :=
  cbv [searchPlaces reverseGeocode getDirections bind try_catch ret throw
       Date_now read_lastCallTime write_lastCallTime wait fetch features_of
       deref_async clock lastCallTime sent].

Ltac project :=
  cbn [Arrival.settled Arrival.took Response.ok Response.body
       Response.statusText negb orb Collection.features
       DirectionsFeature.properties DirectionsFeature.geometry
       LineGeometry.coordinates DirectionsProps.segments
       DirectionsProps.summary Summary.distance Summary.duration] in *.

(** *** Strings *)

Lemma prefix_spec t s :
  String.prefix t s = true <-> exists b, s = t ++ b.
Proof.
  revert t. induction s as [|c s IH]; intros t.
  - destruct t as [|a t]; cbn.
    + split; [exists EmptyString; reflexivity | reflexivity].
    + split; [discriminate | intros (b & H); discriminate].
  - destruct t as [|a t]; cbn [String.prefix].
    + split; [exists (String c s); reflexivity | reflexivity].
    + destruct (ascii_dec a c) as [->|Hne].
      * rewrite IH. split; intros (b & H); exists b.
        -- rewrite H. reflexivity.
        -- cbn in H. congruence.
      * split; [discriminate|]. intros (b & H). cbn in H. congruence.
Qed.

(** [s.includes(t)] holds exactly when [t] is a substring of [s]. *)
Lemma includes_spec s t :
  includes s t = true <-> exists a b, s = a ++ t ++ b.
Proof.
  split.
  - induction s as [|c s IH]; cbn [includes]; intros H.
    + rewrite orb_false_r in H. apply prefix_spec in H. destruct H as (b & H).
      exists EmptyString, b. exact H.
    + apply orb_prop in H. destruct H as [H|H].
      * apply prefix_spec in H. destruct H as (b & H).
        exists EmptyString, b. exact H.
      * destruct (IH H) as (a & b & ->). exists (String c a), b. reflexivity.
  - intros (a & b & ->). induction a as [|c a IH]; cbn [append].
    + destruct (t ++ b) eqn:E; cbn [includes]; apply orb_true_intro; left;
        apply prefix_spec; exists b; rewrite E; reflexivity.
    + cbn [includes]. rewrite IH. apply orb_true_r.
Qed.

Lemma or_else_nonempty a b : b <> EmptyString -> or_else a b <> EmptyString.
Proof.
  intros Hb. unfold or_else. destruct a as [s|]; [|exact Hb].
  destruct s; [exact Hb | discriminate].
Qed.

Lemma label_nonempty a b : a ++ ", " ++ b <> EmptyString.
Proof. destruct a; discriminate. Qed.

Lemma query_long_enough query :
  (3 <= String.length query)%nat ->
  falsy_string query || (String.length query <? 3)%nat = false.
Proof.
  intros H. destruct query; [simpl in H; lia|].
  cbn [falsy_string orb]. apply Nat.ltb_ge. exact H.
Qed.

(** *** Mapping over features leaves the state alone *)

Lemma map_async_steps_world segments w :
  snd (map_async steps_of_segment segments w) = w.
Proof.
  induction segments as [|seg segments IH]; [reflexivity|].
  cbn [map_async]. unfold bind at 1. unfold steps_of_segment at 1.
  destruct (Segment.steps seg) as [steps|];
    cbv [bind deref_async ret throw]; [|reflexivity].
  destruct (map_async steps_of_segment segments w) as [[per|e] w1];
    exact IH.
Qed.

Lemma map_async_places_world fs w :
  snd (map_async place_of_feature fs w) = w.
Proof.
  induction fs as [|f fs IH]; [reflexivity|].
  cbn [map_async]. unfold bind at 1. unfold place_of_feature at 1.
  destruct (SearchFeature.properties f) as [props|];
    cbv [bind deref_async ret throw]; [|reflexivity].
  destruct (SearchFeature.geometry f) as [geom|]; [|reflexivity].
  destruct (map_async place_of_feature fs w) as [[ps|e] w1]; exact IH.
Qed.

Lemma map_async_steps segments w :
  every_segment_has_steps (Some segments) = true ->
  exists per, map_async steps_of_segment segments w = (Fulfilled per, w).
Proof.
  induction segments as [|seg segments IH]; intros H.
  - eexists. reflexivity.
  - cbn [every_segment_has_steps forallb] in H. apply andb_prop in H.
    destruct H as [Hseg Hrest]. destruct (IH Hrest) as (per & E).
    cbn [map_async]. unfold bind at 1. unfold steps_of_segment at 1.
    destruct (Segment.steps seg) as [steps|]; [|discriminate].
    cbv [bind deref_async ret] in *. rewrite E. eexists. reflexivity.
Qed.

Section Gateway.

Variable net : Network.t.

(** *** Reverse geocoding always names the place *)

(** C10. Whatever the coordinates, the state and the provider's reply,
    [reverseGeocode] fulfils with a value, never with null, and the
    value's [name] and [area] are non-empty strings. *)
Theorem reverseGeocode_named lat lng w :
  exists r w',
    reverseGeocode net lat lng w = (Fulfilled (Some r), w')
    /\ GeoName.name r <> EmptyString
    /\ GeoName.area r <> EmptyString.
Proof.
  destruct w as [now last log]. run.
  destruct (now - last <? 500)%Z;
    match goal with
    | |- context [Network.reverse net lat lng ?t] =>
        destruct (Network.reverse net lat lng t)
          as [took [|[ok status text body]]]
    end;
    project;
    try (do 2 eexists; split; [reflexivity|];
         split; [discriminate | apply label_nonempty]).
  all: destruct ok; cbn [negb];
    try (do 2 eexists; split; [reflexivity|];
         split; [discriminate | apply label_nonempty]).
  all: destruct body as [| |[[[|[[props|]] rest]|]]];
    do 2 eexists; (split; [reflexivity|]);
    cbn [GeoName.name GeoName.area];
    try (split; [discriminate | apply label_nonempty]);
    try (split; discriminate);
    split; repeat apply or_else_nonempty; discriminate.
Qed.

(** [searchPlaces] never rejects either, whatever the reply. *)
Lemma searchPlaces_fulfils query w :
  exists places w', searchPlaces net query w = (Fulfilled places, w').
Proof.
  destruct w as [now last log]. unfold searchPlaces.
  destruct (falsy_string query || (String.length query <? 3)%nat);
    [do 2 eexists; reflexivity|].
  run.
  destruct (now - last <? MIN_CALL_INTERVAL)%Z;
    match goal with
    | |- context [Network.search net query ?t] =>
        destruct (Network.search net query t)
          as [took [|[ok status text body]]]
    end;
    project; try (do 2 eexists; reflexivity).
  all: destruct ok; cbn [negb]; try (do 2 eexists; reflexivity).
  all: destruct body as [| |[[fs|]]]; try (do 2 eexists; reflexivity).
  all: project;
    match goal with
    | |- context [map_async place_of_feature ?l ?w0] =>
        destruct (map_async place_of_feature l w0) as [[ps|e] w1]
    end;
    do 2 eexists; reflexivity.
Qed.

(** *** Fallback *)

(** C6. When a query of three characters or more meets a transport or
    parse failure, [searchPlaces] fulfils with the entries of the fallback
    list whose name or address contains the query, letter case apart; when
    a reverse lookup meets one, [reverseGeocode] fulfils with the label
    made of the two coordinates in [toFixed(4)] notation, each of which
    reads back as the coordinate rounded to four decimals.  Neither call
    rejects.  For the query "SM City" the list is the one SM City entry;
    for (14.6741, 121.0359) the label is "14.6741, 121.0359".  (A shorter
    query returns before any request is made, so no failure can meet it.) *)
Theorem fallback_on_failure query lat lng w :
  (3 <= String.length query)%nat ->
  (forall t, failed (Network.search net query t) = true) ->
  (forall t, failed (Network.reverse net lat lng t) = true) ->
  (exists w',
     searchPlaces net query w
     = (Fulfilled
          (filter
             (fun l =>
                includes (toLowerCase (Place.name l)) (toLowerCase query)
                || includes (toLowerCase (Place.address l))
                            (toLowerCase query))
             MOCK_FALLBACK_LOCATIONS),
        w'))
  /\ (exists w',
        reverseGeocode net lat lng w
        = (Fulfilled
             (Some (GeoName.mk "Location Coordinates"
                      (toFixed lat 4 ++ ", " ++ toFixed lng 4))),
           w'))
  /\ parseFloat (toFixed lat 4) = round_to lat 4
  /\ parseFloat (toFixed lng 4) = round_to lng 4
  /\ (query = "SM City" ->
      fst (searchPlaces net query w)
      = Fulfilled [Place.mk "SM City North EDSA" "North Avenue, Quezon City"
                     (lit 14.6560) (lit 121.0290)])
  /\ (lat = lit 14.6741 -> lng = lit 121.0359 ->
      toFixed lat 4 ++ ", " ++ toFixed lng 4 = "14.6741, 121.0359"
      /\ includes (toFixed lat 4 ++ ", " ++ toFixed lng 4) "14.6741" = true
      /\ includes (toFixed lat 4 ++ ", " ++ toFixed lng 4) "121.0359" = true).
Proof.
  intros Hq Hs Hr.
  assert (S : exists w',
     searchPlaces net query w
     = (Fulfilled (filter (matches_query (toLowerCase query))
                     MOCK_FALLBACK_LOCATIONS), w')).
  { destruct w as [now last log]. unfold searchPlaces.
    rewrite (query_long_enough _ Hq). run.
    destruct (now - last <? MIN_CALL_INTERVAL)%Z;
      match goal with
      | |- context [Network.search net query ?t] =>
          specialize (Hs t); unfold failed in Hs;
          destruct (Network.search net query t)
            as [took [|[ok status text body]]]
      end;
      project; try (eexists; reflexivity).
    all: destruct ok; project; try (eexists; reflexivity).
    all: destruct body; try discriminate; eexists; reflexivity. }
  split; [exact S|].
  split.
  { destruct w as [now last log]. run.
    destruct (now - last <? 500)%Z;
      match goal with
      | |- context [Network.reverse net lat lng ?t] =>
          specialize (Hr t); unfold failed in Hr;
          destruct (Network.reverse net lat lng t)
            as [took [|[ok status text body]]]
      end;
      project; try (eexists; reflexivity).
    all: destruct ok; project; try (eexists; reflexivity).
    all: destruct body; try discriminate; eexists; reflexivity. }
  split; [apply parseFloat_toFixed|]. split; [apply parseFloat_toFixed|].
  split.
  - intros ->. destruct S as (w' & ->). vm_compute. reflexivity.
  - intros -> ->. repeat split; vm_compute; reflexivity.
Qed.

(** *** The fare model *)

(** C7. When the provider answers a directions request with a feature that
    has a line geometry, steps in every segment and a summary of [distKm]
    kilometres and [durationSec] seconds, [getDirections] fulfils with an
    itinerary of type FASTEST whose [totalTimeMin] is
    [ceil(durationSec / 60)] and whose [totalCost] is
    [ceil(13 + max(0, (distKm - 4) * 2))]: 15 minutes and 17 pesos for
    6.0 km in 900 s. *)
Theorem getDirections_fare start end_ w took status text coords segments
  distKm durationSec rest :
  (forall t,
     Network.directions net start end_ t
     = Arrival.mk took
         (Resolved
            (Response.mk true status text
               (Json
                  (Collection.mk
                     (Some
                        (DirectionsFeature.mk
                           (Some (DirectionsProps.mk segments
                                    (Some (Summary.mk distKm durationSec))))
                           (Some (LineGeometry.mk (Some coords)))
                         :: rest))))))) ->
  every_segment_has_steps segments = true ->
  exists r w',
    getDirections net start end_ w = (Fulfilled (Some r), w')
    /\ CalculatedRoute.type r = FASTEST
    /\ CalculatedRoute.totalTimeMin r = Math_ceil (div durationSec (num 60))
    /\ CalculatedRoute.totalCost r
       = Math_ceil (add (num 13)
                      (Math_max (num 0) (mul (sub distKm (num 4)) (num 2))))
    /\ (distKm = lit 6.0 -> durationSec = lit 900 ->
        CalculatedRoute.totalTimeMin r = num 15
        /\ CalculatedRoute.totalCost r = num 17).
Proof.
  intros Hnet Hseg. destruct w as [now last log].
  destruct segments as [segs|]; run;
    (destruct (now - last <? MIN_CALL_INTERVAL)%Z; rewrite Hnet; project);
    try match goal with
        | |- context [map_async steps_of_segment segs ?w0] =>
            destruct (map_async_steps segs w0 Hseg) as (per & ->)
        end;
    (do 2 eexists; (split; [reflexivity|]);
     cbn [CalculatedRoute.type CalculatedRoute.totalTimeMin
          CalculatedRoute.totalCost];
     repeat split; try reflexivity; subst; vm_compute; reflexivity).
Qed.

(** *** Ids *)

Lemma route_id_inj a b :
  "route-" ++ string_of_Z a = "route-" ++ string_of_Z b -> a = b.
Proof. intros H. cbn [append] in H. apply string_of_Z_inj. congruence. Qed.

Lemma calculateRoute_id start end_ metric now r :
  calculateRoute start end_ metric now = Normal (Some r) ->
  CalculatedRoute.id r = "route-" ++ string_of_Z now.
Proof.
  unfold calculateRoute.
  destruct (findNearestNode (Coordinates.lat start) (Coordinates.lng start))
    as [s|]; [|discriminate].
  destruct (findNearestNode (Coordinates.lat end_) (Coordinates.lng end_))
    as [e|]; [|discriminate].
  destruct (falsy_string s || falsy_string e || (s =? e)%string);
    [discriminate|].
  destruct (search_path s e metric) as [[p|]| |]; cbn [cbind]; try discriminate.
  destruct (path_coords p) as [cs| |]; cbn [cbind]; try discriminate.
  destruct (accumulate p _) as [sums| |]; cbn [cbind]; try discriminate.
  intros H. injection H as <-. reflexivity.
Qed.

(** The id of a directions itinerary carries the clock reading at which
    the call ends. *)
Lemma getDirections_id start end_ w r w' :
  getDirections net start end_ w = (Fulfilled (Some r), w') ->
  CalculatedRoute.id r = "route-" ++ string_of_Z (clock w').
Proof.
  destruct w as [now last log]. run.
  destruct (now - last <? MIN_CALL_INTERVAL)%Z;
    match goal with
    | |- context [Network.directions net start end_ ?t] =>
        destruct (Network.directions net start end_ t)
          as [took [|[ok status text body]]]
    end;
    project; try discriminate.
  all: destruct ok; cbn [negb]; try discriminate.
  all: destruct body as [| |[[[|[props [[coords]|]] rest]|]]];
    try discriminate.
  all: project.
  all: destruct coords as [coords|]; try discriminate.
  all: destruct props as [[segments summary]|]; try discriminate.
  all: project.
  all: destruct segments as [segs|];
    try match goal with
        | |- context [map_async steps_of_segment ?l ?w0] =>
            pose proof (map_async_steps_world l w0) as E;
            destruct (map_async steps_of_segment l w0) as [[per|e] w1];
            cbn [snd] in E; subst w1
        end;
    try discriminate.
  all: destruct summary as [summary|]; try discriminate.
  all: intros H; injection H as <- <-; reflexivity.
Qed.

(** *** The throttle *)

Local Open Scope Z_scope.

(** What each call leaves behind depends on the throttle and on how long
    the provider took, not on what it answered. *)
Lemma searchPlaces_world query w :
  (3 <= String.length query)%nat ->
  snd (searchPlaces net query w)
  = let t := departure MIN_CALL_INTERVAL (fun _ => 200) w in
    after_call GeocodeSearch t (Arrival.took (Network.search net query t)) w.
Proof.
  intros Hq. destruct w as [now last log]. unfold searchPlaces.
  rewrite (query_long_enough _ Hq). run.
  cbv [departure after_call clock lastCallTime sent].
  destruct (now - last <? MIN_CALL_INTERVAL);
    cbv zeta;
    match goal with
    | |- context [Network.search net query ?t] =>
        destruct (Network.search net query t)
          as [took [|[ok status text body]]]
    end;
    project; try reflexivity.
  all: destruct ok; cbn [negb]; try reflexivity.
  all: destruct body as [| |[[fs|]]]; try reflexivity.
  all: project;
    match goal with
    | |- context [map_async place_of_feature ?l ?w0] =>
        pose proof (map_async_places_world l w0) as E;
        destruct (map_async place_of_feature l w0) as [[ps|e] w1];
        cbn [snd] in E; subst w1; reflexivity
    end.
Qed.

Lemma reverseGeocode_world lat lng w :
  snd (reverseGeocode net lat lng w)
  = let t := departure 500 (fun _ => 500) w in
    after_call GeocodeReverse t
      (Arrival.took (Network.reverse net lat lng t)) w.
Proof.
  destruct w as [now last log]. run.
  cbv [departure after_call clock lastCallTime sent].
  destruct (now - last <? 500);
    cbv zeta;
    match goal with
    | |- context [Network.reverse net lat lng ?t] =>
        destruct (Network.reverse net lat lng t)
          as [took [|[ok status text body]]]
    end;
    project; try reflexivity.
  all: destruct ok; cbn [negb]; try reflexivity.
  all: destruct body as [| |[[[|[[props|]] rest]|]]]; reflexivity.
Qed.

Lemma getDirections_world start end_ w :
  snd (getDirections net start end_ w)
  = let t := departure MIN_CALL_INTERVAL
               (fun since => MIN_CALL_INTERVAL - since) w in
    after_call Directions t
      (Arrival.took (Network.directions net start end_ t)) w.
Proof.
  destruct w as [now last log]. run.
  cbv [departure after_call clock lastCallTime sent].
  destruct (now - last <? MIN_CALL_INTERVAL);
    cbv zeta;
    match goal with
    | |- context [Network.directions net start end_ ?t] =>
        destruct (Network.directions net start end_ t)
          as [took [|[ok status text body]]]
    end;
    project; try reflexivity.
  all: destruct ok; cbn [negb]; try reflexivity.
  all: destruct body as [| |[[[|[props [[coords]|]] rest]|]]];
    try reflexivity.
  all: project.
  all: destruct coords as [coords|]; try reflexivity.
  all: destruct props as [[segments summary]|]; try reflexivity.
  all: project.
  all: destruct segments as [segs|];
    try match goal with
        | |- context [map_async steps_of_segment ?l ?w0] =>
            pose proof (map_async_steps_world l w0) as E;
            destruct (map_async steps_of_segment l w0) as [[per|e] w1];
            cbn [snd] in E; subst w1
        end;
    try reflexivity.
  all: destruct summary as [summary|]; reflexivity.
Qed.

(** Two directions requests back to back leave at least 1000 ms apart:
    the second call sleeps for what remains of the interval. *)
Lemma getDirections_spacing start end_ w :
  exists t1 t2,
    sent (back_to_back (getDirections net start end_) w)
    = (t2, Directions) :: (t1, Directions) :: sent w
    /\ MIN_CALL_INTERVAL <= t2 - t1.
Proof.
  unfold back_to_back. rewrite !getDirections_world.
  cbv [after_call departure clock lastCallTime sent MIN_CALL_INTERVAL].
  cbv zeta. do 2 eexists. split; [reflexivity|].
  match goal with
  | |- context [if ?b then _ else _] => destruct b eqn:E
  end.
  - lia.
  - apply Z.ltb_ge in E. lia.
Qed.

(** Two reverse lookups back to back leave at least 500 ms apart, the
    provider taking no negative time: the second call sleeps a flat
    500 ms when it comes within 500 ms of the first request. *)
Lemma reverseGeocode_spacing lat lng w :
  (forall t, 0 <= Arrival.took (Network.reverse net lat lng t)) ->
  exists t1 t2,
    sent (back_to_back (reverseGeocode net lat lng) w)
    = (t2, GeocodeReverse) :: (t1, GeocodeReverse) :: sent w
    /\ 500 <= t2 - t1.
Proof.
  intros Hnet. unfold back_to_back. rewrite !reverseGeocode_world.
  cbv zeta. set (t1 := departure 500 (fun _ => 500) w).
  specialize (Hnet t1).
  cbv [after_call departure clock lastCallTime sent].
  do 2 eexists. split; [reflexivity|].
  match goal with
  | |- context [if ?b then _ else _] => destruct b eqn:E
  end.
  - lia.
  - apply Z.ltb_ge in E. lia.
Qed.

(** Two searches back to back: when the provider settles the first within
    the interval, the second request leaves a flat 200 ms after that. *)
Lemma searchPlaces_pause query w :
  (3 <= String.length query)%nat ->
  let t1 := departure MIN_CALL_INTERVAL (fun _ => 200) w in
  let took := Arrival.took (Network.search net query t1) in
  took < MIN_CALL_INTERVAL ->
  sent (back_to_back (searchPlaces net query) w)
  = (t1 + took + 200, GeocodeSearch) :: (t1, GeocodeSearch) :: sent w.
Proof.
  intros Hq t1 took Htook. unfold back_to_back.
  rewrite !searchPlaces_world by exact Hq. cbv zeta. fold t1. fold took.
  cbv [after_call departure clock lastCallTime sent].
  replace (t1 + took - t1) with took by lia.
  apply Z.ltb_lt in Htook. rewrite Htook. reflexivity.
Qed.

Local Close Scope Z_scope.

End Gateway.

(** C4, at the input where the code falls short of it.  Two calls of
    [searchPlaces("SM City")] back to back, the provider settling the
    first after 150 ms: the second request leaves 350 ms after the first,
    short of the 1000 ms of [MIN_CALL_INTERVAL]. *)
Theorem searchPlaces_spacing_too_short :
  sent (back_to_back (searchPlaces quick_network "SM City") morning)
  = [(1700000000350%Z, GeocodeSearch); (1700000000000%Z, GeocodeSearch)]
  /\ (1700000000350 - 1700000000000 < MIN_CALL_INTERVAL)%Z.
Proof. split; vm_compute; reflexivity. Qed.

Lemma fallback_on_failure_witness :
  (exists w',
     searchPlaces quick_network "SM City" morning
     = (Fulfilled
          (filter
             (fun l =>
                includes (toLowerCase (Place.name l)) (toLowerCase "SM City")
                || includes (toLowerCase (Place.address l))
                            (toLowerCase "SM City"))
             MOCK_FALLBACK_LOCATIONS),
        w'))
  /\ (exists w',
        reverseGeocode quick_network (lit 14.6741) (lit 121.0359) morning
        = (Fulfilled
             (Some (GeoName.mk "Location Coordinates"
                      (toFixed (lit 14.6741) 4 ++ ", "
                       ++ toFixed (lit 121.0359) 4))),
           w'))
  /\ parseFloat (toFixed (lit 14.6741) 4) = round_to (lit 14.6741) 4
  /\ parseFloat (toFixed (lit 121.0359) 4) = round_to (lit 121.0359) 4
  /\ ("SM City" = "SM City" ->
      fst (searchPlaces quick_network "SM City" morning)
      = Fulfilled [Place.mk "SM City North EDSA" "North Avenue, Quezon City"
                     (lit 14.6560) (lit 121.0290)])
  /\ (lit 14.6741 = lit 14.6741 -> lit 121.0359 = lit 121.0359 ->
      toFixed (lit 14.6741) 4 ++ ", " ++ toFixed (lit 121.0359) 4
      = "14.6741, 121.0359"
      /\ includes (toFixed (lit 14.6741) 4 ++ ", "
                   ++ toFixed (lit 121.0359) 4) "14.6741" = true
      /\ includes (toFixed (lit 14.6741) 4 ++ ", "
                   ++ toFixed (lit 121.0359) 4) "121.0359" = true).
Proof.
  apply (fallback_on_failure quick_network "SM City"
           (lit 14.6741) (lit 121.0359) morning).
  - vm_compute. lia.
  - intros t. reflexivity.
  - intros t. reflexivity.
Defined.

Lemma getDirections_fare_witness :
  exists r w',
    getDirections (directions_network (lit 6.0) (lit 900))
      palengke_point technohub_point morning
    = (Fulfilled (Some r), w')
    /\ CalculatedRoute.type r = FASTEST
    /\ CalculatedRoute.totalTimeMin r = Math_ceil (div (lit 900) (num 60))
    /\ CalculatedRoute.totalCost r
       = Math_ceil (add (num 13)
                      (Math_max (num 0) (mul (sub (lit 6.0) (num 4)) (num 2))))
    /\ (lit 6.0 = lit 6.0 -> lit 900 = lit 900 ->
        CalculatedRoute.totalTimeMin r = num 15
        /\ CalculatedRoute.totalCost r = num 17).
Proof.
  apply (getDirections_fare (directions_network (lit 6.0) (lit 900))
           palengke_point technohub_point morning 150%Z 200%Z "OK"
           [(lit 121.0359, lit 14.6741); (lit 121.0580, lit 14.6575)]
           None (lit 6.0) (lit 900) []).
  - intros t. reflexivity.
  - reflexivity.
Defined.

(** *** Ids follow the clock *)

Lemma computed_at_id r t :
  computed_at r t -> CalculatedRoute.id r = "route-" ++ string_of_Z t.
Proof.
  intros [(s & e & m & H)|(net & s & e & w & w' & H & <-)].
  - exact (calculateRoute_id _ _ _ _ _ H).
  - exact (getDirections_id _ _ _ _ _ _ H).
Qed.

(** C9, as the code has it.  The id of an itinerary is the clock reading
    at which it was made, behind the prefix [route-]: two computations,
    by [calculateRoute] or by [getDirections], give their itineraries the
    same id exactly when they read the same millisecond off the clock, so
    the ids differ whenever the readings do. *)
Theorem route_ids_follow_the_clock r1 t1 r2 t2 :
  computed_at r1 t1 -> computed_at r2 t2 ->
  (CalculatedRoute.id r1 = CalculatedRoute.id r2 <-> t1 = t2).
Proof.
  intros H1 H2.
  rewrite (computed_at_id _ _ H1), (computed_at_id _ _ H2). split.
  - apply route_id_inj.
  - intros ->. reflexivity.
Qed.

Lemma route_ids_follow_the_clock_witness :
  CalculatedRoute.id (route_via_comm_ave "route-0" FASTEST ["Fastest"])
  = CalculatedRoute.id walking_route
  <-> 0%Z = 0%Z.
Proof.
  apply (route_ids_follow_the_clock
           (route_via_comm_ave "route-0" FASTEST ["Fastest"]) 0
           walking_route 0).
  - left. exists palengke_point, technohub_point, TIME.
    vm_compute. reflexivity.
  - left. exists comm_ave_point, technohub_point, COST.
    vm_compute. reflexivity.
Defined.

(** C9, as the specification words it, fails: two searches made in the
    same millisecond return different itineraries under one id. *)
Lemma ids_can_repeat : ~ ids_never_repeat.
Proof.
  intros H.
  apply (H (route_via_comm_ave "route-0" FASTEST ["Fastest"]) 0%Z
           walking_route 0%Z).
  - left. exists palengke_point, technohub_point, TIME.
    vm_compute. reflexivity.
  - left. exists comm_ave_point, technohub_point, COST.
    vm_compute. reflexivity.
  - discriminate.
  - reflexivity.
Qed.

(* ================================================================== *)
(** ** Route variants *)
(* ================================================================== *)

Section Variants.


Example variants_of_six_km_route :
  map (fun r => (CalculatedRoute.totalTimeMin r,
                 CalculatedRoute.totalDistanceKm r,
                 CalculatedRoute.totalCost r))
      (generateRouteVariants six_km_route)
  = [ (num 15, num 6, num 17);
      (num 20, num 6, num 13);
      (num 17, lit 5.7, num 17) ].
Proof. vm_compute. reflexivity. Qed.






(** What [getDirections] stores as a distance is on the 0.01 grid. *)
Lemma round_to_hundredths q :
  0 <= q -> hundredths (round_to (Fin q) 2).
Proof.
  intros Hq. unfold round_to.
  assert (Esign : Qlt_bool q 0 = false).
  { apply not_true_iff_false. rewrite Qlt_bool_iff. lra. }
  rewrite Esign. exists (Z.of_N (scaled_round q 2)). eexists.
  split; [lia|]. split; [reflexivity|]. apply Qred_correct.
Qed.

End Variants.



(* ================================================================== *)
(** ** The nearest node *)
(* ================================================================== *)

Section Nearest.

Variables lat lng : number.
Hypothesis lat_finite : finite lat = true.
Hypothesis lng_finite : finite lng = true.







End Nearest.







(* ================================================================== *)
(** ** Every route is found, and what an itinerary looks like *)
(* ================================================================== *)

Lemma get_In {V : Type} (r : Rec V) k v : get r k = Some v -> In (k, v) r.
Proof.
  induction r as [|[k' v'] r IH]; cbn [get]; [discriminate|].
  destruct (String.eqb_spec k' k) as [->|_].
  - intros H. injection H as ->. left. reflexivity.
  - intros H. right. exact (IH H).
Qed.

Lemma find_connection_edge u node v c :
  get GRAPH_NODES u = Some node -> find_connection node v = Some c ->
  In (u, c) all_edges /\ Connection.targetId c = v.
Proof.
  intros Hn Hc. apply get_In in Hn. unfold find_connection in Hc.
  apply find_some in Hc. destruct Hc as [Hin Ht].
  apply String.eqb_eq in Ht. split; [|exact Ht].
  unfold all_edges. apply in_flat_map. exists (u, node). split; [exact Hn|].
  cbn [fst snd]. apply in_map. exact Hin.
Qed.

Lemma last_default {A : Type} (l : list A) (x d d' : A) :
  last (x :: l) d = last (x :: l) d'.
Proof.
  revert x. induction l as [|y l IH]; intros x; [reflexivity|].
  change (last (y :: l) d = last (y :: l) d'). apply IH.
Qed.

(** A path of node ids whose every leg has an edge is a walk of the
    graph, from its first node to its last. *)
Lemma path_is_walk metric p :
  forall acc w u rest,
    p = u :: rest -> path_weight metric p acc = Some w ->
    exists es, Walk u (last p u) es.
Proof.
  induction p as [|x p IH]; intros acc w u rest E H; [discriminate|].
  injection E as -> ->.
  destruct rest as [|v rest].
  - exists []. cbn. constructor.
  - cbn [path_weight] in H.
    destruct (get GRAPH_NODES u) as [node|] eqn:Hn; [|discriminate].
    destruct (find_connection node v) as [c|] eqn:Hc; [|discriminate].
    destruct (find_connection_edge _ _ _ _ Hn Hc) as [Hin Ht].
    destruct (IH _ _ v rest eq_refl H) as (es & Hw).
    exists ((u, c) :: es). constructor; [exact Hin|]. rewrite Ht.
    change (last (u :: v :: rest) u) with (last (v :: rest) u).
    rewrite (last_default rest v u v). exact Hw.
Qed.

Lemma walk_weight_finite metric u v es :
  Walk u v es -> finite (walk_weight metric es) = true.
Proof.
  assert (F : forallb (fun e : string * Connection.t =>
                         finite (weight_of metric (snd e))) all_edges = true)
    by (destruct metric; vm_compute; reflexivity).
  rewrite forallb_forall in F.
  induction 1 as [u|u v c rest Hin _ IH]; [reflexivity|].
  cbn [walk_weight fold_right snd]. fold (walk_weight metric rest).
  specialize (F _ Hin). cbn [snd] in F.
  destruct (weight_of metric c); try discriminate.
  destruct (walk_weight metric rest); try discriminate. reflexivity.
Qed.

(** X3. [calculateRoute] returns an itinerary exactly when the two points
    snap to different nodes and the graph has a walk from the first to the
    second; in every other case it returns null. *)
Theorem calculateRoute_finds_every_route start end_ metric now :
  (exists r, calculateRoute start end_ metric now = Normal (Some r))
  <-> (exists s e es,
         resolve start = Some s /\ resolve end_ = Some e
         /\ s <> e /\ Walk s e es).
Proof.
  unfold resolve, calculateRoute.
  destruct (findNearestNode (Coordinates.lat start) (Coordinates.lng start))
    as [s|] eqn:Hs;
    [|split; [intros (r & H); discriminate H
             | intros (s & e & es & H & _); discriminate H]].
  destruct (findNearestNode (Coordinates.lat end_) (Coordinates.lng end_))
    as [e|] eqn:He;
    [|split; [intros (r & H); discriminate H
             | intros (s' & e & es & _ & H & _); discriminate H]].
  pose proof (findNearestNode_range _ _ _ Hs) as Is.
  pose proof (findNearestNode_range _ _ _ He) as Ie.
  clear Hs He.
  generalize ("route-" ++ string_of_Z now). intros id.
  split.
  - intros (r & H). exists s, e.
    each_node Is; each_node Ie; destruct metric;
      vm_compute in H; try discriminate H;
      match goal with
      | |- exists es, Some ?a = _ /\ Some ?b = _ /\ _ =>
          let p := eval vm_compute in (search_path a b TIME) in
          lazymatch p with
          | Normal (Some ?l) =>
              destruct (path_is_walk TIME l (num 0) _ a (tl l) eq_refl
                          ltac:(vm_compute; reflexivity)) as (es & Hw);
              exists es; repeat split; [discriminate | exact Hw]
          end
      end.
  - intros (s' & e' & es & Es & Ee & Hne & Hw).
    injection Es as <-. injection Ee as <-.
    pose proof (reference_lower_bound metric s e es Is Hw) as L.
    pose proof (walk_weight_finite metric s e es Hw) as F.
    destruct (walk_weight metric es) as [| | |q]; try discriminate F.
    clear F Hw.
    each_node Is; each_node Ie; try (exfalso; apply Hne; reflexivity);
      destruct metric;
      first [ eexists; vm_compute; reflexivity
            | exfalso; vm_compute in L; discriminate L ].
Qed.

(** X4. An itinerary of [calculateRoute] has a step for every leg of its
    path, which has two points or more; its steps' durations add up to
    the total time in seconds, their distances to the total distance in
    metres, and its type is the one of the metric. *)
Theorem calculateRoute_shape start end_ metric now r :
  calculateRoute start end_ metric now = Normal (Some r) ->
  (2 <= List.length (CalculatedRoute.path r))%nat
  /\ S (List.length (CalculatedRoute.steps r))
     = List.length (CalculatedRoute.path r)
  /\ mul (CalculatedRoute.totalTimeMin r) (num 60)
     = sum_numbers (map RouteStep.duration (CalculatedRoute.steps r))
  /\ mul (CalculatedRoute.totalDistanceKm r) (num 1000)
     = sum_numbers (map RouteStep.distance (CalculatedRoute.steps r))
  /\ CalculatedRoute.type r = route_type metric.
Proof.
  intros H. unfold calculateRoute in H.
  destruct (findNearestNode (Coordinates.lat start) (Coordinates.lng start))
    as [s|] eqn:Hs; [|discriminate].
  destruct (findNearestNode (Coordinates.lat end_) (Coordinates.lng end_))
    as [e|] eqn:He; [|discriminate].
  pose proof (findNearestNode_range _ _ _ Hs) as Is.
  pose proof (findNearestNode_range _ _ _ He) as Ie.
  clear Hs He.
  set (id := "route-" ++ string_of_Z now) in H. clearbody id.
  each_node Is; each_node Ie; destruct metric;
    vm_compute in H; try discriminate H; injection H as <-;
    (split; [cbn; lia|]); repeat split; vm_compute; reflexivity.
Qed.

Lemma calculateRoute_shape_witness :
  (2 <= List.length
          (CalculatedRoute.path
             (route_via_comm_ave "route-0" FASTEST ["Fastest"])))%nat
  /\ S (List.length
          (CalculatedRoute.steps
             (route_via_comm_ave "route-0" FASTEST ["Fastest"])))
     = List.length
         (CalculatedRoute.path
            (route_via_comm_ave "route-0" FASTEST ["Fastest"]))
  /\ mul (CalculatedRoute.totalTimeMin
            (route_via_comm_ave "route-0" FASTEST ["Fastest"])) (num 60)
     = sum_numbers
         (map RouteStep.duration
            (CalculatedRoute.steps
               (route_via_comm_ave "route-0" FASTEST ["Fastest"])))
  /\ mul (CalculatedRoute.totalDistanceKm
            (route_via_comm_ave "route-0" FASTEST ["Fastest"])) (num 1000)
     = sum_numbers
         (map RouteStep.distance
            (CalculatedRoute.steps
               (route_via_comm_ave "route-0" FASTEST ["Fastest"])))
  /\ CalculatedRoute.type (route_via_comm_ave "route-0" FASTEST ["Fastest"])
     = route_type TIME.
Proof.
  apply (calculateRoute_shape palengke_point technohub_point TIME 0).
  vm_compute. reflexivity.
Defined.

(** X19. An itinerary of [calculateRoute] begins at the node the start
    snaps to and ends at the node the end snaps to; every point of its
    path is a node of the graph, and none is visited twice. *)
Theorem calculateRoute_endpoints start end_ metric now r :
  calculateRoute start end_ metric now = Normal (Some r) ->
  exists s e source target,
    resolve start = Some s /\ resolve end_ = Some e
    /\ get GRAPH_NODES s = Some source /\ get GRAPH_NODES e = Some target
    /\ hd_error (CalculatedRoute.path r) = Some (GraphNode.coords source)
    /\ last (CalculatedRoute.path r) (GraphNode.coords source)
       = GraphNode.coords target
    /\ incl (CalculatedRoute.path r)
            (map GraphNode.coords (Object_values GRAPH_NODES))
    /\ NoDup (CalculatedRoute.path r).
Proof.
  intros H. unfold calculateRoute in H. unfold resolve.
  destruct (findNearestNode (Coordinates.lat start) (Coordinates.lng start))
    as [s|] eqn:Hs; [|discriminate].
  destruct (findNearestNode (Coordinates.lat end_) (Coordinates.lng end_))
    as [e|] eqn:He; [|discriminate].
  pose proof (findNearestNode_range _ _ _ Hs) as Is.
  pose proof (findNearestNode_range _ _ _ He) as Ie.
  clear Hs He.
  set (id := "route-" ++ string_of_Z now) in H. clearbody id.
  exists s, e.
  each_node Is; each_node Ie; destruct metric;
    vm_compute in H; try discriminate H; injection H as <-;
    do 2 eexists; (split; [reflexivity|]); (split; [reflexivity|]);
    (split; [vm_compute; reflexivity|]); (split; [vm_compute; reflexivity|]);
    (split; [reflexivity|]); (split; [reflexivity|]);
    (split;
     [intros p Hp; cbn [CalculatedRoute.path] in Hp; vm_compute;
      repeat (destruct Hp as [<-|Hp]; [tauto|]); destruct Hp
     |cbn [CalculatedRoute.path];
      repeat (constructor; [cbn [In]; intuition discriminate|]);
      constructor]).
Qed.

Lemma calculateRoute_endpoints_witness :
  exists s e source target,
    resolve palengke_point = Some s /\ resolve technohub_point = Some e
    /\ get GRAPH_NODES s = Some source /\ get GRAPH_NODES e = Some target
    /\ hd_error
         (CalculatedRoute.path
            (route_via_comm_ave "route-0" FASTEST ["Fastest"]))
       = Some (GraphNode.coords source)
    /\ last (CalculatedRoute.path
               (route_via_comm_ave "route-0" FASTEST ["Fastest"]))
            (GraphNode.coords source)
       = GraphNode.coords target
    /\ incl (CalculatedRoute.path
               (route_via_comm_ave "route-0" FASTEST ["Fastest"]))
            (map GraphNode.coords (Object_values GRAPH_NODES))
    /\ NoDup (CalculatedRoute.path
                (route_via_comm_ave "route-0" FASTEST ["Fastest"])).
Proof.
  apply (calculateRoute_endpoints palengke_point technohub_point TIME 0).
  vm_compute. reflexivity.
Defined.


(* ================================================================== *)
(** ** The priority queue *)
(* ================================================================== *)

From Stdlib Require Import Sorting.Sorted Sorting.Permutation.

Section QueueOrder.

Variable d : Rec number.

Let key (k : string) : number := distance_of d k.
Let cmp (a b : string) : number := sub (key a) (key b).
Let ordered (a b : string) : Prop := leb (key a) (key b) = true.

Lemma positive_sub x y :
  distance_like x = true -> distance_like y = true ->
  positive_number (sub x y) = ltb y x.
Proof.
  destruct x as [| | |a], y as [| | |b]; try discriminate; try reflexivity.
  intros _ _. unfold positive_number, sub. cbn [neg add ltb num].
  apply eq_true_iff_eq. rewrite !Qlt_bool_iff, !Qred_correct.
  change (inject_Z 0) with 0. split; intros H; lra.
Qed.

Lemma not_ltb_leb x y :
  distance_like x = true -> distance_like y = true ->
  ltb y x = false -> leb x y = true.
Proof.
  destruct x as [| | |a], y as [| | |b]; try discriminate; try reflexivity.
  intros _ _ H. apply leb_Fin. apply not_true_iff_false in H.
  rewrite ltb_Fin in H. lra.
Qed.

Lemma ltb_leb x y : ltb x y = true -> leb x y = true.
Proof. intros H. unfold leb. rewrite H. reflexivity. Qed.

Lemma before_perm x l : Permutation (x :: l) (before cmp x l).
Proof.
  induction l as [|y l IH]; [reflexivity|].
  cbn [before]. destruct (positive_number (cmp x y)); [|reflexivity].
  rewrite perm_swap. apply perm_skip. exact IH.
Qed.

Lemma sort_perm l : Permutation l (JS.sort cmp l).
Proof.
  induction l as [|x l IH]; [reflexivity|].
  cbn [JS.sort fold_right]. fold (JS.sort cmp l).
  rewrite <- before_perm. apply perm_skip. exact IH.
Qed.

Lemma before_sorted x l :
  distance_like (key x) = true ->
  Forall (fun k => distance_like (key k) = true) l ->
  StronglySorted ordered l -> StronglySorted ordered (before cmp x l).
Proof.
  intros Hx Hl Hs. induction Hs as [|y l Hs IH Hy].
  - repeat constructor.
  - inversion Hl as [|? ? Ky Kl]; subst. cbn [before]. unfold cmp at 1.
    rewrite positive_sub by assumption.
    destruct (ltb (key y) (key x)) eqn:L.
    + constructor; [exact (IH Kl)|].
      rewrite <- before_perm. constructor; [|exact Hy].
      apply ltb_leb, L.
    + assert (Hxy : ordered x y) by (apply not_ltb_leb; assumption).
      constructor; [constructor; assumption|].
      constructor; [exact Hxy|].
      rewrite Forall_forall in *. intros z Hz.
      exact (leb_trans _ _ _ Hxy (Hy z Hz)).
Qed.

Lemma sort_sorted l :
  Forall (fun k => distance_like (key k) = true) l ->
  StronglySorted ordered (JS.sort cmp l).
Proof.
  induction l as [|x l IH]; intros H; [constructor|].
  inversion H as [|? ? Kx Kl]; subst.
  cbn [JS.sort fold_right]. fold (JS.sort cmp l).
  apply before_sorted; [exact Kx | | exact (IH Kl)].
  rewrite <- sort_perm. exact Kl.
Qed.

End QueueOrder.

(** X5. When every queued node has a distance that is finite or
    infinite, the sort of the main loop rearranges the queue in order of
    tentative distance, so the node it takes off the front is one of the
    nearest. *)
Theorem queue_sort_selects_nearest d q u rest :
  Forall (fun k => distance_like (distance_of d k) = true) q ->
  JS.sort (fun a b => sub (distance_of d a) (distance_of d b)) q = u :: rest ->
  Permutation q (u :: rest)
  /\ Forall (fun k => leb (distance_of d u) (distance_of d k) = true) q
  /\ StronglySorted
       (fun a b => leb (distance_of d a) (distance_of d b) = true)
       (u :: rest).
Proof.
  intros Hq E.
  pose proof (sort_perm d q) as P. pose proof (sort_sorted d q Hq) as S.
  cbv beta zeta in P, S. rewrite E in P, S.
  split; [exact P|]. split; [|exact S].
  rewrite P. inversion S as [|? ? _ Hu]; subst. constructor; [|exact Hu].
  rewrite P in Hq. inversion Hq as [|? ? Ku _]; subst.
  destruct (distance_of d u); try discriminate; [reflexivity|].
  apply leb_Fin, Qle_refl.
Qed.

Lemma queue_sort_selects_nearest_witness :
  Permutation ["visayas_ave"; "technohub"; "comm_ave"; "ts_palengke"]
              ["ts_palengke"; "visayas_ave"; "comm_ave"; "technohub"]
  /\ Forall (fun k => leb (distance_of tentative "ts_palengke")
                          (distance_of tentative k) = true)
       ["visayas_ave"; "technohub"; "comm_ave"; "ts_palengke"]
  /\ StronglySorted
       (fun a b => leb (distance_of tentative a) (distance_of tentative b)
                   = true)
       ["ts_palengke"; "visayas_ave"; "comm_ave"; "technohub"].
Proof.
  apply (queue_sort_selects_nearest tentative
           ["visayas_ave"; "technohub"; "comm_ave"; "ts_palengke"]).
  - repeat constructor.
  - vm_compute. reflexivity.
Defined.


(* ================================================================== *)
(** ** Local search and terminals *)
(* ================================================================== *)

Lemma short_query_nothing query :
  falsy_string query || (String.length query <? 2)%nat = false
  <-> (2 <= String.length query)%nat.
Proof.
  destruct query as [|c q]; cbn [falsy_string orb String.length].
  - split; [discriminate | lia].
  - rewrite Nat.ltb_ge. reflexivity.
Qed.

(** X6. [searchLocations] lists exactly the terminals whose name or
    address, and the streets whose text, hold the query as a substring,
    letter case apart, and nothing at all for a query under two
    characters; a street is listed under the text before its first
    comma. *)
Theorem searchLocations_sound_complete query r :
  In r (searchLocations query)
  <-> (2 <= String.length query)%nat
      /\ ((SearchResult.type r = TERMINAL
           /\ exists node,
                In node (Object_values GRAPH_NODES)
                /\ SearchResult.name r = GraphNode.name node
                /\ SearchResult.address r = GraphNode.address node
                /\ (contains (toLowerCase (SearchResult.name r))
                             (toLowerCase query)
                    \/ contains (toLowerCase (SearchResult.address r))
                                (toLowerCase query)))
          \/ (SearchResult.type r = LOCATION
              /\ In (SearchResult.address r) MOCK_STREETS
              /\ SearchResult.name r = before_comma (SearchResult.address r)
              /\ contains (toLowerCase (SearchResult.address r))
                          (toLowerCase query))).
Proof.
  unfold searchLocations, contains.
  destruct (falsy_string query || (String.length query <? 2)%nat) eqn:Q.
  - split; [intros []|]. intros [H _]. apply short_query_nothing in H.
    congruence.
  - apply short_query_nothing in Q. rewrite in_app_iff, !in_map_iff. split.
    + intros [(node & <- & H)|(street & <- & H)];
        apply filter_In in H; destruct H as [Hin Hm];
        (split; [exact Q|]).
      * left. split; [reflexivity|]. exists node.
        cbn [SearchResult.name SearchResult.address].
        repeat split; [exact Hin|]. unfold terminal_matches in Hm.
        apply orb_prop in Hm. rewrite !includes_spec in Hm. exact Hm.
      * right. cbn [SearchResult.name SearchResult.address SearchResult.type].
        repeat split; [exact Hin|]. unfold street_matches in Hm.
        apply includes_spec. exact Hm.
    + intros [_ [(T & node & Hin & En & Ea & Hm)|(T & Hin & En & Hm)]];
        destruct r as [name address type];
        cbn [SearchResult.name SearchResult.address SearchResult.type] in *;
        subst.
      * left. exists node. split; [reflexivity|]. apply filter_In.
        split; [exact Hin|]. unfold terminal_matches.
        apply orb_true_intro. rewrite !includes_spec. exact Hm.
      * right. exists address. split; [reflexivity|]. apply filter_In.
        split; [exact Hin|]. unfold street_matches. apply includes_spec.
        exact Hm.
Qed.

Lemma before_comma_no_comma s : has_comma (before_comma s) = false.
Proof.
  induction s as [|c s IH]; [reflexivity|]. cbn [before_comma].
  destruct (Ascii.eqb c ",") eqn:E; [reflexivity|].
  cbn [has_comma]. rewrite E. exact IH.
Qed.

Lemma before_comma_split s :
  has_comma s = true -> exists rest, s = before_comma s ++ "," ++ rest.
Proof.
  induction s as [|c s IH]; [discriminate|]. cbn [has_comma before_comma].
  destruct (Ascii.eqb_spec c ","%char) as [->|_].
  - intros _. exists s. reflexivity.
  - cbn [orb]. intros H. destruct (IH H) as (rest & E). exists rest.
    cbn [append]. f_equal. exact E.
Qed.

(** X7. A LOCATION result of [searchLocations] is named by the part of
    its address before the first comma: the name has no comma, and the
    address is the name, a comma and a rest. *)
Theorem searchLocations_location_names query r :
  In r (searchLocations query) -> SearchResult.type r = LOCATION ->
  has_comma (SearchResult.name r) = false
  /\ exists rest,
       SearchResult.address r = SearchResult.name r ++ "," ++ rest.
Proof.
  unfold searchLocations.
  destruct (falsy_string query || (String.length query <? 2)%nat); [intros []|].
  rewrite in_app_iff, !in_map_iff.
  intros [(node & <- & _)|(street & <- & H)] T; [discriminate T|].
  cbn [SearchResult.name SearchResult.address].
  split; [apply before_comma_no_comma|]. apply before_comma_split.
  apply filter_In in H. destruct H as [Hin _].
  assert (C : forallb has_comma MOCK_STREETS = true)
    by (vm_compute; reflexivity).
  rewrite forallb_forall in C. exact (C _ Hin).
Qed.

(** X8. Every terminal of [getTerminals] stands on its own node: its
    location snaps back to its id, its name is the node's, its
    [routeCount] is the number of the node's connections, and every
    connection leads to a listed terminal. *)
Theorem getTerminals_resolve t :
  In t getTerminals ->
  resolve (Terminal.location t) = Some (Terminal.id t)
  /\ exists node,
       get GRAPH_NODES (Terminal.id t) = Some node
       /\ Terminal.name t = GraphNode.name node
       /\ Terminal.routeCount t
          = num (Z.of_nat (List.length (GraphNode.connections node)))
       /\ forall c, In c (GraphNode.connections node) ->
            In (Connection.targetId c) (map Terminal.id getTerminals).
Proof.
  intros H. unfold getTerminals in H. apply in_map_iff in H.
  destruct H as (node & <- & Hin).
  cbn [Terminal.location Terminal.id Terminal.name Terminal.routeCount].
  cbv [Object_values GRAPH_NODES map snd] in Hin.
  repeat (destruct Hin as [<-|Hin]); try destruct Hin.
  all: split; [vm_compute; reflexivity|].
  all: eexists; split; [vm_compute; reflexivity|].
  all: split; [reflexivity|]; split; [reflexivity|].
  all: intros c Hc; cbv [GraphNode.connections] in Hc.
  all: repeat (destruct Hc as [<-|Hc]); try destruct Hc.
  all: vm_compute; repeat first [left; reflexivity | right].
Qed.

Lemma searchLocations_location_names_witness :
  has_comma "25 Banlat Road" = false
  /\ exists rest,
       "25 Banlat Road, Tandang Sora, Quezon City, 1116 Metro Manila"
       = "25 Banlat Road" ++ "," ++ rest.
Proof.
  apply (searchLocations_location_names "banlat"
           (SearchResult.mk "25 Banlat Road"
              "25 Banlat Road, Tandang Sora, Quezon City, 1116 Metro Manila"
              LOCATION)).
  - vm_compute. left. reflexivity.
  - reflexivity.
Defined.

Lemma getTerminals_resolve_witness :
  resolve palengke_point = Some "ts_palengke"
  /\ exists node,
       get GRAPH_NODES "ts_palengke" = Some node
       /\ "Tandang Sora Palengke" = GraphNode.name node
       /\ num 2 = num (Z.of_nat (List.length (GraphNode.connections node)))
       /\ forall c, In c (GraphNode.connections node) ->
            In (Connection.targetId c) (map Terminal.id getTerminals).
Proof.
  apply (getTerminals_resolve
           (Terminal.mk "ts_palengke" "Tandang Sora Palengke"
              "Tandang Sora Palengke, Tandang Sora Ave, Quezon City, 1116 Metro Manila"
              "MIXED" palengke_point (lit 4.5) (num 2))).
  vm_compute. left. reflexivity.
Defined.


(* ================================================================== *)
(** ** The gateway: what the search returns *)
(* ================================================================== *)

Lemma short_query query :
  (String.length query < 3)%nat ->
  falsy_string query || (String.length query <? 3)%nat = true.
Proof.
  intros H. apply orb_true_intro. right. apply Nat.ltb_lt. exact H.
Qed.

Lemma place_of_feature_spec f w :
  match place_of f with
  | Some p => place_of_feature f w = (Fulfilled p, w)
  | None => exists e, place_of_feature f w = (RejectedWith e, w)
  end.
Proof.
  unfold place_of, place_of_feature.
  destruct (SearchFeature.properties f) as [props|];
    cbv [bind deref_async ret throw]; [|eexists; reflexivity].
  destruct (SearchFeature.geometry f) as [geom|]; [reflexivity|].
  eexists. reflexivity.
Qed.

(** [features.map(...)] throws as soon as one feature lacks a member it
    reads, and gives no partial list. *)
Lemma map_async_places fs w :
  (forallb well_formed fs = true ->
   exists ps, map_async place_of_feature fs w = (Fulfilled ps, w)
              /\ map Some ps = map place_of fs)
  /\ (forallb well_formed fs = false ->
      exists e, map_async place_of_feature fs w = (RejectedWith e, w)).
Proof.
  induction fs as [|f fs [IHt IHf]].
  - split; [|discriminate]. intros _. exists []. split; reflexivity.
  - cbn [forallb map_async map]. unfold well_formed at 1 3.
    pose proof (place_of_feature_spec f w) as Hf.
    destruct (place_of f) as [p|]; cbn [andb].
    + split; intros H; unfold bind at 1; rewrite Hf.
      * destruct (IHt H) as (ps & E1 & E2). exists (p :: ps).
        unfold bind, ret. rewrite E1. split; [reflexivity|].
        cbn [map]. rewrite E2. reflexivity.
      * destruct (IHf H) as (e & E). exists e. unfold bind. rewrite E.
        reflexivity.
    + split; [discriminate|]. intros _. destruct Hf as (e & Hf). exists e.
      unfold bind at 1. rewrite Hf. reflexivity.
Qed.

Section Search.

Variable net : Network.t.

(** X9. [searchPlaces] sends a request exactly when the query has three
    characters or more; a shorter query is answered with the empty list
    at once, and leaves the clock, [lastCallTime] and the log as they
    were. *)
Theorem searchPlaces_request query w :
  ((exists t,
      sent (snd (searchPlaces net query w)) = (t, GeocodeSearch) :: sent w)
   <-> (3 <= String.length query)%nat)
  /\ ((String.length query < 3)%nat ->
      searchPlaces net query w = (Fulfilled [], w)).
Proof.
  assert (Short : (String.length query < 3)%nat ->
                  searchPlaces net query w = (Fulfilled [], w)).
  { intros H. unfold searchPlaces. rewrite (short_query _ H). reflexivity. }
  split; [|exact Short]. split.
  - intros (t & E). destruct (Nat.lt_ge_cases (String.length query) 3)
      as [H|H]; [|exact H].
    rewrite (Short H) in E. cbn [snd] in E.
    apply (f_equal (@List.length _)) in E. cbn [List.length] in E. lia.
  - intros H. rewrite (searchPlaces_world net query w H). cbv zeta.
    eexists. reflexivity.
Qed.

(** X10. When the provider lists features, [searchPlaces] returns one
    place for each, its latitude the second and its longitude the first
    of the feature's coordinates, provided every feature has its
    properties and its geometry; if one of them lacks either, the whole
    list is dropped for the matching entries of the fallback list. *)
Theorem searchPlaces_features query w took status text fs :
  (3 <= String.length query)%nat ->
  (forall t, Network.search net query t = search_reply took status text fs) ->
  exists places,
    fst (searchPlaces net query w) = Fulfilled places
    /\ if forallb well_formed fs then map Some places = map place_of fs
       else places = filter (matches_query (toLowerCase query))
                       MOCK_FALLBACK_LOCATIONS.
Proof.
  intros Hq Hnet. destruct w as [now last log]. unfold searchPlaces.
  rewrite (query_long_enough _ Hq). run.
  destruct (now - last <? MIN_CALL_INTERVAL)%Z; rewrite Hnet;
    unfold search_reply; project;
    match goal with
    | |- context [map_async place_of_feature fs ?w0] =>
        destruct (map_async_places fs w0) as [Ht Hf]
    end;
    (destruct (forallb well_formed fs);
     [destruct (Ht eq_refl) as (ps & -> & E); exists ps; split;
        [reflexivity | exact E]
     |destruct (Hf eq_refl) as (e & ->); eexists; split; reflexivity]).
Qed.

End Search.

Lemma searchPlaces_features_witness :
  exists places,
    fst (searchPlaces careless_network "Trinoma" morning) = Fulfilled places
    /\ places = filter (matches_query "trinoma") MOCK_FALLBACK_LOCATIONS.
Proof.
  apply (searchPlaces_features careless_network "Trinoma" morning
           150%Z 200%Z "OK" [trinoma_feature; SearchFeature.mk None None]).
  - cbn. lia.
  - intros t. reflexivity.
Defined.


(* ================================================================== *)
(** ** The gateway: what the directions return *)
(* ================================================================== *)

Lemma map_async_steps_by_car segments w per w1 :
  map_async steps_of_segment segments w = (Fulfilled per, w1) ->
  Forall by_car (List.concat per)
  /\ every_segment_has_steps (Some segments) = true.
Proof.
  revert per w1. induction segments as [|seg segments IH]; intros per w1.
  - cbn. intros H. injection H as <- _. split; [constructor | reflexivity].
  - cbn [map_async]. unfold bind at 1. unfold steps_of_segment at 1.
    cbn [every_segment_has_steps forallb].
    destruct (Segment.steps seg) as [steps|];
      cbv [bind deref_async ret throw]; [|discriminate].
    destruct (map_async steps_of_segment segments w) as [[rest|e] w2];
      [|discriminate].
    intros H. injection H as <- _. cbn [List.concat].
    destruct (IH rest w2 eq_refl) as [C S]. split; [|exact S].
    apply Forall_app. split; [|exact C].
    apply Forall_forall. intros s Hs. apply in_map_iff in Hs.
    destruct Hs as (x & <- & _). reflexivity.
Qed.

(** The fare: the base of 13 and what the distance adds to it. *)
Lemma fare_not_below_base x :
  ltb (Math_ceil (add (num 13) (Math_max (num 0) x))) (num 13) = false.
Proof.
  destruct x as [| | |q]; try reflexivity.
  unfold num. rewrite Math_max_Fin.
  destruct (Qlt_bool (inject_Z 0) q) eqn:E; cbn [add Math_ceil]; unfold num;
    apply not_true_iff_false; rewrite ltb_Fin; intros H;
    match goal with
    | H : inject_Z (Qceiling (Qred ?y)) < _ |- _ =>
        pose proof (Qle_ceiling (Qred y)) as Hc;
        pose proof (Qred_correct y) as Hr
    end.
  - apply Qlt_bool_iff in E. change (inject_Z 0) with 0%Q in E.
    change (inject_Z 13) with 13%Q in *. lra.
  - change (inject_Z 0) with 0%Q in *. change (inject_Z 13) with 13%Q in *.
    lra.
Qed.


Lemma Math_ceil_idempotent x : Math_ceil (Math_ceil x) = Math_ceil x.
Proof.
  destruct x as [| | |q]; try reflexivity.
  cbn [Math_ceil num]. rewrite Qceiling_Z. reflexivity.
Qed.

Lemma round_to_grid x q :
  round_to x 2 = Fin q -> exists k : Z, q == inject_Z k / 100.
Proof.
  destruct x as [| | |y]; try discriminate. intros H.
  destruct (round_to_nearest _ _ _ H) as [(k & Hk) _]. exists k. exact Hk.
Qed.


Section Directions.

Variable net : Network.t.

Local Open Scope Z_scope.

(** What a returned itinerary was made of. *)
Lemma getDirections_inv start end_ w r w' :
  getDirections net start end_ w = (Fulfilled (Some r), w') ->
  exists status text segments distKm duration coords rest steps,
    Arrival.settled (Network.directions net start end_ (lastCallTime w'))
    = usable_reply status text segments distKm duration coords rest
    /\ every_segment_has_steps segments = true
    /\ r = CalculatedRoute.mk
             ("route-" ++ string_of_Z (clock w'))
             (Math_ceil (div duration (num 60)))
             (round_to distKm 2)
             (Math_ceil
                (add (num 13)
                   (Math_max (num 0) (mul (sub distKm (num 4)) (num 2)))))
             (map (fun c => Coordinates.mk (snd c) (fst c)) coords)
             steps FASTEST ["Fare"; "Distance"; "Time"]
    /\ Forall by_car steps.
Proof.
  destruct w as [now last log]. run.
  destruct (now - last <? MIN_CALL_INTERVAL)%Z;
    match goal with
    | |- context [Network.directions net start end_ ?t] =>
        set (t0 := t) in *; clearbody t0;
        destruct (Network.directions net start end_ t0)
          as [took [|[ok status text body]]] eqn:Enet
    end;
    project; try discriminate.
  all: destruct ok; cbn [negb]; try discriminate.
  all: destruct body as [| |[[[|[props [[coords]|]] rest]|]]];
    try discriminate.
  all: project.
  all: destruct coords as [coords|]; try discriminate.
  all: destruct props as [[segments summary]|]; try discriminate.
  all: project.
  all: destruct segments as [segs|];
    try match goal with
        | |- context [map_async steps_of_segment ?l ?w0] =>
            pose proof (map_async_steps_world l w0) as E;
            pose proof (map_async_steps_by_car l w0) as C;
            destruct (map_async steps_of_segment l w0) as [[per|e] w1];
            cbn [snd] in E; subst w1
        end;
    try discriminate.
  all: destruct summary as [[distKm duration]|]; try discriminate.
  all: intros H; injection H as <- <-; cbn [lastCallTime clock];
    rewrite Enet; cbn [Arrival.settled]; unfold usable_reply;
    do 8 eexists; (split; [reflexivity|]);
    first [ destruct (C _ _ eq_refl) as [C1 C2];
            (split; [exact C2|]);
            (split; [rewrite <- parseFloat_toFixed; reflexivity | exact C1])
          | (split; [reflexivity|]);
            (split; [rewrite <- parseFloat_toFixed; reflexivity
                    | constructor]) ].
Qed.

(** [getDirections] catches whatever goes wrong. *)
Lemma getDirections_fulfils start end_ w :
  exists r w', getDirections net start end_ w = (Fulfilled r, w').
Proof.
  destruct w as [now last log]. run.
  destruct (now - last <? MIN_CALL_INTERVAL)%Z;
    match goal with
    | |- context [Network.directions net start end_ ?t] =>
        destruct (Network.directions net start end_ t)
          as [took [|[ok status text body]]]
    end;
    project; try (do 2 eexists; reflexivity).
  all: destruct ok; cbn [negb]; try (do 2 eexists; reflexivity).
  all: destruct body as [| |[[[|[props [[coords]|]] rest]|]]];
    try (do 2 eexists; reflexivity).
  all: project.
  all: destruct coords as [coords|]; try (do 2 eexists; reflexivity).
  all: destruct props as [[segments summary]|];
    try (do 2 eexists; reflexivity).
  all: project.
  all: destruct segments as [segs|];
    try match goal with
        | |- context [map_async steps_of_segment ?l ?w0] =>
            destruct (map_async steps_of_segment l w0) as [[per|e] w1]
        end;
    try (do 2 eexists; reflexivity).
  all: destruct summary as [summary|]; do 2 eexists; reflexivity.
Qed.

(** X11. [getDirections] never rejects, and fulfils with null whenever
    its request is rejected, answered with an HTTP error or answered with
    a body that is not JSON. *)
Theorem getDirections_null_on_failure start end_ w :
  exists r w',
    getDirections net start end_ w = (Fulfilled r, w')
    /\ (failed (Network.directions net start end_ (lastCallTime w')) = true ->
        r = None).
Proof.
  destruct (getDirections_fulfils start end_ w) as (r & w' & E).
  exists r, w'. split; [exact E|]. intros F.
  destruct r as [r|]; [|reflexivity].
  destruct (getDirections_inv _ _ _ _ _ E)
    as (? & ? & ? & ? & ? & ? & ? & ? & G & _).
  unfold failed in F. rewrite G in F. discriminate F.
Qed.

(** X12. Whatever the provider sent, an itinerary of [getDirections] is
    of type FASTEST, all its steps are by car, its cost is not below the
    base fare of 13, its cost and its time are whole numbers when they
    are finite, and its distance, when finite, is a multiple of 0.01. *)
Theorem getDirections_itinerary start end_ w r w' :
  getDirections net start end_ w = (Fulfilled (Some r), w') ->
  CalculatedRoute.type r = FASTEST
  /\ Forall by_car (CalculatedRoute.steps r)
  /\ ltb (CalculatedRoute.totalCost r) (num 13) = false
  /\ Math_ceil (CalculatedRoute.totalCost r) = CalculatedRoute.totalCost r
  /\ Math_ceil (CalculatedRoute.totalTimeMin r)
     = CalculatedRoute.totalTimeMin r
  /\ (forall q, CalculatedRoute.totalDistanceKm r = Fin q ->
      exists k : Z, q == inject_Z k / 100).
Proof.
  intros E. destruct (getDirections_inv _ _ _ _ _ E)
    as (status & text & segments & distKm & duration & coords & rest & steps
        & _ & _ & -> & Hsteps).
  cbn [CalculatedRoute.type CalculatedRoute.steps CalculatedRoute.totalCost
       CalculatedRoute.totalTimeMin CalculatedRoute.totalDistanceKm].
  split; [reflexivity|]. split; [exact Hsteps|].
  split; [apply fare_not_below_base|].
  split; [apply Math_ceil_idempotent|].
  split; [apply Math_ceil_idempotent|].
  intros q. apply round_to_grid.
Qed.



End Directions.

Lemma getDirections_itinerary_witness :
  CalculatedRoute.type morning_route = FASTEST
  /\ Forall by_car (CalculatedRoute.steps morning_route)
  /\ ltb (CalculatedRoute.totalCost morning_route) (num 13) = false
  /\ Math_ceil (CalculatedRoute.totalCost morning_route)
     = CalculatedRoute.totalCost morning_route
  /\ Math_ceil (CalculatedRoute.totalTimeMin morning_route)
     = CalculatedRoute.totalTimeMin morning_route
  /\ (forall q, CalculatedRoute.totalDistanceKm morning_route = Fin q ->
      exists k : Z, q == inject_Z k / 100).
Proof.
  apply (getDirections_itinerary (directions_network (lit 6.0) (lit 900))
           palengke_point technohub_point morning morning_route
           after_morning_route).
  vm_compute. reflexivity.
Defined.




(* ================================================================== *)
(** ** The gateway: sessions *)
(* ================================================================== *)

Section Sessions.

Variable net : Network.t.
Hypothesis net_causal : causal net.

Local Open Scope Z_scope.

Lemma after_call_tracked endpoint threshold pause took w :
  tracked w -> 0 <= took ->
  (forall since,
     0 <= since < threshold ->
     gap endpoint <= since + Z.max 0 (pause since)) ->
  gap endpoint <= threshold ->
  tracked (after_call endpoint (departure threshold pause w) took w).
Proof.
  intros (Hlast & Hhead & Hsp) Htook Hpause Hthr.
  unfold tracked, after_call, departure. cbn [clock lastCallTime sent].
  split; [lia|]. split; [reflexivity|].
  cbn [spaced]. split; [|exact Hsp].
  destruct (sent w) as [|[t1 e1] rest]; [exact I|]. subst t1.
  destruct (clock w - lastCallTime w <? threshold) eqn:E.
  - apply Z.ltb_lt in E.
    specialize (Hpause (clock w - lastCallTime w) ltac:(lia)). lia.
  - apply Z.ltb_ge in E. lia.
Qed.

Lemma perform_tracked w c : tracked w -> tracked (perform net w c).
Proof.
  destruct net_causal as (Hs & Hr & Hd). intros H.
  destruct c as [query|lat lng|start end_]; cbn [perform].
  - destruct (Nat.lt_ge_cases (String.length query) 3) as [Hq|Hq].
    + unfold searchPlaces.
      assert (E : falsy_string query || (String.length query <? 3)%nat = true).
      { apply orb_true_intro. right. apply Nat.ltb_lt. exact Hq. }
      rewrite E. exact H.
    + rewrite (searchPlaces_world net query w Hq). cbv zeta.
      apply after_call_tracked; [exact H | apply Hs | | ];
        unfold gap, MIN_CALL_INTERVAL; lia.
  - rewrite reverseGeocode_world. cbv zeta.
    apply after_call_tracked; [exact H | apply Hr | | ];
      unfold gap; lia.
  - rewrite getDirections_world. cbv zeta.
    apply after_call_tracked; [exact H | apply Hd | | ];
      unfold gap, MIN_CALL_INTERVAL; lia.
Qed.

Lemma session_tracked calls w : tracked w -> tracked (session net calls w).
Proof.
  revert w. induction calls as [|c calls IH]; intros w H; [exact H|].
  cbn [session fold_left]. apply IH, perform_tracked, H.
Qed.

End Sessions.

(** X15. In a session of awaited gateway calls on a freshly loaded
    module, with a provider that takes no negative time, every request
    leaves at least its endpoint's pause after the request before it,
    of whichever endpoint: 1000 ms for directions, 500 ms for a reverse
    lookup, 200 ms for a search. *)
Theorem session_spaced net calls now :
  causal net -> (0 <= now)%Z ->
  spaced (sent (session net calls (loaded now))).
Proof.
  intros Hnet Hnow.
  apply (session_tracked net Hnet calls (loaded now)).
  unfold tracked, loaded. cbn [clock lastCallTime sent spaced].
  split; [exact Hnow|]. split; exact I.
Qed.

Lemma session_spaced_witness :
  spaced
    (sent
       (session quick_network
          [CallSearch "SM City"; CallSearch "SM";
           CallDirections palengke_point technohub_point;
           CallReverse (lit 14.6741) (lit 121.0359)]
          (loaded 1700000000000))).
Proof.
  apply (session_spaced quick_network
           [CallSearch "SM City"; CallSearch "SM";
            CallDirections palengke_point technohub_point;
            CallReverse (lit 14.6741) (lit 121.0359)]
           1700000000000%Z).
  - repeat split; intros; cbn; lia.
  - lia.
Defined.


(* ================================================================== *)
(** ** Variant ids and the page's route search *)
(* ================================================================== *)

Lemma append_inj_l (a b c : string) : a ++ b = a ++ c -> b = c.
Proof.
  induction a as [|x a IH]; cbn [append]; intros H; [exact H|].
  apply IH. congruence.
Qed.

Lemma suffixes_differ (a b c : string) :
  b <> c -> (a ++ b =? a ++ c) = false.
Proof.
  intros H. apply String.eqb_neq. intros E. exact (H (append_inj_l _ _ _ E)).
Qed.

(** Looking a variant up by its id, as the popup does, finds that
    variant. *)
Lemma variant_found base v :
  In v (generateRouteVariants base) ->
  find (fun r => CalculatedRoute.id r =? CalculatedRoute.id v)
       (generateRouteVariants base) = Some v.
Proof.
  unfold generateRouteVariants. cbv zeta.
  intros [<-|[<-|[<-|[]]]];
    cbn [find CalculatedRoute.id];
    rewrite ?String.eqb_refl, ?suffixes_differ by discriminate; reflexivity.
Qed.

(** X16. The three variants of an itinerary carry three different ids,
    each the id of the base with a suffix of its own. *)
Theorem generateRouteVariants_ids_distinct base :
  NoDup (map CalculatedRoute.id (generateRouteVariants base))
  /\ Forall (fun v => String.prefix (CalculatedRoute.id base)
                        (CalculatedRoute.id v) = true
                      /\ CalculatedRoute.id v <> CalculatedRoute.id base)
       (generateRouteVariants base).
Proof.
  unfold generateRouteVariants. cbv zeta. cbn [map CalculatedRoute.id]. split.
  - repeat constructor; cbn [In]; intros H;
      repeat (destruct H as [H|H]; [apply append_inj_l in H; discriminate H|]);
      exact H.
  - repeat constructor; cbn [CalculatedRoute.id];
      try (apply prefix_spec; eexists; reflexivity);
      intros E; rewrite <- (append_nil_r (CalculatedRoute.id base)) in E at 2;
      apply append_inj_l in E; discriminate E.
Qed.

Section RouteSearch.

Variable net : Network.t.

(** X17. [handleSearchRoutes] never rejects and leaves the current route
    alone.  It either shows one more alert and leaves the offer as it was,
    or puts three itineraries on offer and opens the selection.  With an
    endpoint missing it sends no request and touches neither the loading
    flag nor the search page; otherwise it sends one directions request,
    closes the search page and ends with the loading flag down. *)
Theorem handleSearchRoutes_settles p w :
  exists p' w',
    handleSearchRoutes net p w = (Fulfilled tt, p', w')
    /\ Page.currentRoute p' = Page.currentRoute p
    /\ ((exists message,
           Page.alerts p' = message :: Page.alerts p
           /\ Page.possibleRoutes p' = Page.possibleRoutes p
           /\ Page.isSelectingRoute p' = Page.isSelectingRoute p)
        \/ (Page.alerts p' = Page.alerts p
            /\ List.length (Page.possibleRoutes p') = 3%nat
            /\ Page.isSelectingRoute p' = true))
    /\ match route_start p, Page.searchToCoords p with
       | Some _, Some _ =>
           Page.isLoading p' = false
           /\ Page.isSearchPageOpen p' = false
           /\ exists t, sent w' = (t, Directions) :: sent w
       | _, _ => w' = w /\ Page.isLoading p' = Page.isLoading p
                 /\ Page.isSearchPageOpen p' = Page.isSearchPageOpen p
       end.
Proof.
  unfold handleSearchRoutes.
  destruct (route_start p) as [start|];
    [destruct (Page.searchToCoords p) as [end_|]|];
    try (do 2 eexists; split; [reflexivity|]; split; [reflexivity|];
         split; [left; eexists; repeat split|repeat split]).
  pose proof (getDirections_world net start end_ w) as W. cbv zeta in W.
  destruct (getDirections_fulfils net start end_ w) as (r & w' & E).
  rewrite E in W |- *. cbn [snd] in W. subst w'.
  do 2 eexists. split; [reflexivity|].
  destruct r as [r|]; (split; [reflexivity|]);
    (split; [|repeat split; eexists; reflexivity]).
  - right. repeat split.
  - left. eexists. repeat split.
Qed.

(** X18. After a search that started with nothing on offer, choosing any
    of the itineraries on offer by its id makes that very itinerary the
    current route, clears the offer, closes the selection and opens the
    route panel. *)
Theorem selectRoute_after_search p w p' w' v :
  Page.possibleRoutes p = [] ->
  handleSearchRoutes net p w = (Fulfilled tt, p', w') ->
  In v (Page.possibleRoutes p') ->
  Page.currentRoute (selectRoute (CalculatedRoute.id v) p') = Some v
  /\ Page.possibleRoutes (selectRoute (CalculatedRoute.id v) p') = []
  /\ Page.isSelectingRoute (selectRoute (CalculatedRoute.id v) p') = false
  /\ Page.showRoutePanel (selectRoute (CalculatedRoute.id v) p') = true
  /\ Page.isLoading (selectRoute (CalculatedRoute.id v) p') = false.
Proof.
  intros Hempty. unfold handleSearchRoutes.
  destruct (route_start p) as [start|];
    [destruct (Page.searchToCoords p) as [end_|]|];
    try (intros H; injection H as <- _; cbn [alert Page.possibleRoutes];
         rewrite Hempty; intros []).
  destruct (getDirections net start end_ w) as [[[r|]|e] w1];
    try discriminate;
    intros H; injection H as <- _;
    cbn [setLoading setIsSelectingRoute setPossibleRoutes setIsSearchPageOpen
         alert Page.possibleRoutes];
    [|rewrite Hempty; intros []].
  intros Hv. unfold selectRoute.
  cbn [setLoading setIsSelectingRoute setPossibleRoutes Page.possibleRoutes].
  rewrite (variant_found r v Hv).
  repeat split.
Qed.

End RouteSearch.

Lemma selectRoute_after_search_witness :
  Page.currentRoute (selectRoute (CalculatedRoute.id cheap_variant) offer_page)
  = Some cheap_variant
  /\ Page.possibleRoutes
       (selectRoute (CalculatedRoute.id cheap_variant) offer_page) = []
  /\ Page.isSelectingRoute
       (selectRoute (CalculatedRoute.id cheap_variant) offer_page) = false
  /\ Page.showRoutePanel
       (selectRoute (CalculatedRoute.id cheap_variant) offer_page) = true
  /\ Page.isLoading
       (selectRoute (CalculatedRoute.id cheap_variant) offer_page) = false.
Proof.
  apply (selectRoute_after_search (directions_network (lit 6.0) (lit 900))
           search_page morning offer_page after_morning_route cheap_variant).
  - reflexivity.
  - vm_compute. reflexivity.
  - vm_compute. right. left. reflexivity.
Defined.
